(** * polar-mcp-proxy: the schema normalizer and the /message router

    A shallow embedding of [src/schema-normalizer.ts] and of the
    [app.post("/message")] handler of the proxy server, with the properties
    the specification states about them.

    The TypeScript code works on untyped JSON data ([unknown], [any],
    [Record<string, unknown>]), so the embedding starts with a model of the
    JavaScript values the code can see and of the part of the object model
    it relies on: own properties, their enumeration order, property reads,
    property writes and object spread. *)

From Stdlib Require Import ZArith NArith List Bool Ascii String Floats Lia.
From Stdlib Require Import DecimalString.
From stdpp Require Import gmap strings.
Import ListNotations.
Open Scope string_scope.
Open Scope list_scope.

(** ** JavaScript values *)

Module Js.

(** The values that reach the proxy are parsed JSON, plus [undefined], which
    the normalizer itself stores in a property ([description: undefined]) and
    which a property read yields for a missing key.  Numbers are IEEE 754
    doubles.  An object is the list of its own enumerable string-keyed
    properties, in the order [Object.keys], [Object.entries], object spread
    and [JSON.stringify] enumerate them. *)
#[warnings="-register-all"]
Inductive value : Type :=
| JUndefined
| JNull
| JBool (b : bool)
| JNum (n : float)
| JStr (s : string)
| JArr (items : list value)
| JObj (props : list (string * value)).

Definition props := list (string * value).

(** [typeof v] *)
Definition typeof (v : value) : string :=
  match v with
  | JUndefined => "undefined"
  | JNull => "object"
  | JBool _ => "boolean"
  | JNum _ => "number"
  | JStr _ => "string"
  | JArr _ => "object"
  | JObj _ => "object"
  end.

(** [v === undefined] and [v === null] *)
Definition is_undefined (v : value) : bool :=
  match v with JUndefined => true | _ => false end.

Definition is_null (v : value) : bool :=
  match v with JNull => true | _ => false end.

(** [Array.isArray(v)] *)
Definition isArray (v : value) : bool :=
  match v with JArr _ => true | _ => false end.

(** The guard [typeof v !== "object" || v === null] that opens every
    function of the normalizer. *)
Definition not_an_object (v : value) : bool :=
  negb (String.eqb (typeof v) "object") || is_null v.

(** ToBoolean: [undefined], [null], [false], [0], [-0], [NaN] and the empty
    string are falsy, everything else (every object and array) is truthy. *)
Definition truthy (v : value) : bool :=
  match v with
  | JUndefined => false
  | JNull => false
  | JBool b => b
  | JNum n => negb (PrimFloat.is_zero n || PrimFloat.is_nan n)
  | JStr s => negb (String.eqb s "")
  | JArr _ => true
  | JObj _ => true
  end.

(** *** Property keys and their enumeration order

    An ordinary object lists its own keys with the array indices first, in
    ascending numeric order, and then the other string keys in the order
    they were created.  An array index is the canonical decimal spelling of
    an integer below 2^32 - 1. *)
Definition array_index (k : string) : option N :=
  match NilZero.uint_of_string k with
  | Some u =>
      let n := N.of_uint u in
      if String.eqb (NilZero.string_of_uint (N.to_uint n)) k && (n <? 4294967295)%N
      then Some n else None
  | None => None
  end.

(** [key_before k k']: a property [k] that is being created is enumerated
    before the existing property [k']. *)
Definition key_before (k k' : string) : bool :=
  match array_index k, array_index k' with
  | Some n, Some n' => (n <? n')%N
  | Some _, None => true
  | None, _ => false
  end.

(** *** Own properties *)

Fixpoint own_get (o : props) (k : string) : option value :=
  match o with
  | [] => None
  | (k', v) :: o' => if String.eqb k k' then Some v else own_get o' k
  end.

Definition has_own (o : props) (k : string) : bool :=
  match own_get o k with Some _ => true | None => false end.

(** A new property takes its place in the enumeration order. *)
Fixpoint insert_new (o : props) (k : string) (v : value) : props :=
  match o with
  | [] => [(k, v)]
  | (k', v') :: o' =>
      if key_before k k' then (k, v) :: o else (k', v') :: insert_new o' k v
  end.

(** An existing property keeps its place and takes the new value. *)
Definition overwrite (k : string) (v : value) (kv : string * value) : string * value :=
  if String.eqb (fst kv) k then (k, v) else kv.

(** CreateDataProperty, the step of an object literal and of object spread. *)
Definition define_own (o : props) (k : string) (v : value) : props :=
  if has_own o k then map (overwrite k v) o else insert_new o k v.

(** The assignment [o[k] = v] on an object whose prototype chain ends in
    [Object.prototype].  The one accessor there is [__proto__]: assigning to
    that key runs its setter, which may replace the prototype and never
    creates an own property.  Every other key defines or overwrites an own
    data property. *)
Definition assign (o : props) (k : string) (v : value) : props :=
  if String.eqb k "__proto__" then o else define_own o k v.

(** The property read [v.k], for [v] an object, an array or a primitive
    other than [null] and [undefined], and for the keys the proxy reads
    ([type], [properties], [name], [description], [inputSchema], [error],
    [result], [tools], [method], [id], [params]): none of them exists on a
    built-in prototype or on an array, so the read finds an own property of
    an object or yields [undefined]. *)
Definition get (v : value) (k : string) : value :=
  match v with
  | JObj o => match own_get o k with Some x => x | None => JUndefined end
  | _ => JUndefined
  end.

(** [Object.entries(v)], also the source of a spread [...v]: the own
    properties of an object; the elements of an array under their indices. *)
Fixpoint indexed (i : N) (l : list value) : props :=
  match l with
  | [] => []
  | x :: l' => (NilZero.string_of_uint (N.to_uint i), x) :: indexed (N.succ i) l'
  end.

Definition entries (v : value) : props :=
  match v with
  | JObj o => o
  | JArr l => indexed 0 l
  | _ => []
  end.

(** [{ ...base, ...src }]: every own property of [src] is defined on the
    object under construction, in order. *)
Definition define_all (base : props) (l : props) : props :=
  fold_left (fun acc kv => define_own acc (fst kv) (snd kv)) l base.

Definition spread (base : props) (src : value) : props :=
  define_all base (entries src).

(** *** Well-formed values

    The property list of an object that exists at run time is in enumeration
    order: every key is enumerated before the keys that follow it.  This
    makes the keys pairwise distinct, puts the array indices first and sorts
    them. *)
Definition key_lt (k k' : string) : bool :=
  match array_index k, array_index k' with
  | Some n, Some n' => (n <? n')%N
  | Some _, None => true
  | None, Some _ => false
  | None, None => negb (String.eqb k k')
  end.

(** The two halves of a property list: the array indices, which come
    first, and the named properties. *)
Definition is_index (kv : string * value) : bool :=
  match array_index (fst kv) with Some _ => true | None => false end.

Definition is_named (kv : string * value) : bool := negb (is_index kv).

Definition index_part (o : props) : props := List.filter is_index o.

Definition named_part (o : props) : props := List.filter is_named o.

(** The properties of [base] with the values [o] holds for them, where it
    has any. *)
Definition merged (base o : props) : props :=
  map (fun kv => (fst kv, match own_get o (fst kv) with
                          | Some v => v
                          | None => snd kv
                          end)) base.

Fixpoint ordered_keys (ks : list string) : bool :=
  match ks with
  | [] => true
  | k :: ks' => forallb (key_lt k) ks' && ordered_keys ks'
  end.

Fixpoint wf (v : value) : bool :=
  match v with
  | JArr l => forallb wf l
  | JObj o => ordered_keys (map fst o) && forallb (fun kv => wf (snd kv)) o
  | _ => true
  end.

(** JSON data: a value in which [undefined] does not occur. *)
Fixpoint is_json (v : value) : bool :=
  match v with
  | JUndefined => false
  | JArr l => forallb is_json l
  | JObj o => forallb (fun kv => is_json (snd kv)) o
  | _ => true
  end.

End Js.

(** ** Exceptions *)

(** What a [throw] or a rejected promise carries: an [Error] with its
    message, or any other value. *)
Inductive exn : Type :=
| ErrorObj (message : string)
| Thrown (v : Js.value).

Inductive result (A : Type) : Type :=
| Ok (a : A)
| Throw (e : exn).
Arguments Ok {A} a.
Arguments Throw {A} e.

Definition bind {A B : Type} (r : result A) (f : A -> result B) : result B :=
  match r with
  | Ok a => f a
  | Throw e => Throw e
  end.

Notation "x <- r ;; k" := (bind r (fun x => k))
  (at level 100, r at next level, right associativity).

(** [xs.map(f)] for an [f] that may throw: the first exception ends the map. *)
Fixpoint mapM {A B : Type} (f : A -> result B) (xs : list A) : result (list B) :=
  match xs with
  | [] => Ok []
  | x :: xs' => y <- f x ;; ys <- mapM f xs' ;; Ok (y :: ys)
  end.

(** ** src/schema-normalizer.ts *)

Module SchemaNormalizer.
Import Js.

Definition schemaNeedsNormalization (schema : value) : bool :=
  if not_an_object schema then false
  else negb (truthy (get schema "type"))
       && negb (is_undefined (get schema "properties")).

Definition normalizeInputSchema (schema : value) : value :=
  if negb (schemaNeedsNormalization schema) then schema
  else JObj (spread [("type", JStr "object")] schema).

Definition passthrough_key (key : string) : bool :=
  negb (existsb (String.eqb key) ["name"; "description"; "inputSchema"]).

Definition normalizeTool (tool : value) : result value :=
  if not_an_object tool then
    Throw (ErrorObj ("Invalid tool: expected object, got " +:+ typeof tool))
  else if negb (String.eqb (typeof (get tool "name")) "string") then
    Throw (ErrorObj "Invalid tool: missing or invalid 'name' field")
  else
    let normalizedTool :=
      [("name", get tool "name");
       ("description",
         if String.eqb (typeof (get tool "description")) "string"
         then get tool "description" else JUndefined);
       ("inputSchema", JObj [])] in
    inputSchema <-
      (if negb (is_undefined (get tool "inputSchema")) then
         if not_an_object (get tool "inputSchema") then
           Throw (ErrorObj ("Invalid tool '"
                            +:+ match get tool "name" with JStr s => s | _ => "" end
                            +:+ "': inputSchema must be an object"))
         else Ok (normalizeInputSchema (get tool "inputSchema"))
       else Ok (JObj [("type", JStr "object"); ("properties", JObj [])])) ;;
    let normalizedTool := assign normalizedTool "inputSchema" inputSchema in
    Ok (JObj (fold_left
                (fun acc kv =>
                   if passthrough_key (fst kv)
                   then assign acc (fst kv) (snd kv) else acc)
                (entries tool) normalizedTool)).

Definition normalizeTools (tools : value) : result value :=
  if negb (isArray tools) then Ok (JArr [])
  else
    normalized <- mapM normalizeTool (match tools with JArr l => l | _ => [] end) ;;
    Ok (JArr normalized).

Definition normalizeToolsListResponse (response : value) : result value :=
  if not_an_object response then Ok response
  else if negb (is_undefined (get response "error")) then Ok response
  else
    let result := get response "result" in
    if not_an_object result then Ok response
    else if negb (isArray (get result "tools")) then Ok response
    else
      normalizedTools <- normalizeTools (get result "tools") ;;
      Ok (JObj (define_own (spread [] response) "result"
                  (JObj (define_own (spread [] result) "tools" normalizedTools)))).

(** *** Closed forms used in the statements below *)

(** The members of the descriptor normalizeTool returns, and the tools it
    rejects, spelled out for the statements below. *)
Definition descriptionOf (tool : value) : value :=
  if String.eqb (typeof (get tool "description")) "string"
  then get tool "description" else JUndefined.

Definition default_schema : value :=
  JObj [("type", JStr "object"); ("properties", JObj [])].

Definition inputSchemaOf (tool : value) : value :=
  if is_undefined (get tool "inputSchema") then default_schema
  else normalizeInputSchema (get tool "inputSchema").

Definition rejected (tool : value) : bool :=
  not_an_object tool
  || negb (String.eqb (typeof (get tool "name")) "string")
  || (negb (is_undefined (get tool "inputSchema"))
      && not_an_object (get tool "inputSchema")).

(** What the loop over [Object.entries(toolObj)] gives the descriptor: the
    entries it lets through, less [__proto__], on which an assignment defines
    nothing. *)
Definition copied (kv : string * value) : bool :=
  passthrough_key (fst kv) && negb (String.eqb (fst kv) "__proto__").

Definition extras (o : props) : props := List.filter copied (named_part o).

(** The descriptor of a tool with own properties [o], in closed form. *)
Definition descriptor (o : props) (name description inputSchema : value) : props :=
  index_part o
  ++ [("name", name); ("description", description); ("inputSchema", inputSchema)]
  ++ extras o.

(** The responses normalizeToolsListResponse rewrites: those that pass its
    four guards. *)
Definition rewritten (response : value) : bool :=
  negb (not_an_object response)
  && is_undefined (get response "error")
  && negb (not_an_object (get response "result"))
  && isArray (get (get response "result") "tools").

End SchemaNormalizer.

(** ** The /message handler of the proxy server *)

Module Proxy.
Import Js SchemaNormalizer.

(** The upstream MCP client of a connection, as the handler sees it: what
    the promise of [listTools()] settles to, and what the promise of
    [callTool(params)] settles to.  The SDK types the value [listTools()]
    resolves to as an object (it parses the result against its schema first);
    it is given here by its own properties, so that the read [result.tools]
    is the read of a member of an object. *)
Record Client : Type := {
  listTools : result props;
  callTool : value -> result value
}.

(** [ClientConnection]: the handler uses the [mcpClient] and the SSE
    [response], which is modelled by the writes made to it. *)
Record ClientConnection : Type := {
  mcpClient : Client
}.

(** An inbound POST /message: [req.query.clientId] and [req.body]. *)
Record Request : Type := {
  clientId : option string;
  body : value
}.

(** What the handler does, in the order it does it. *)
Inductive event : Type :=
| UpstreamListTools (client : string)
| UpstreamCallTool (client : string) (params : value)
| SseWrite (client : string) (message : value)
| HttpReply (status : Z) (body : value).

(** [x ?? null] *)
Definition or_null (x : value) : value :=
  if is_undefined x || is_null x then JNull else x.

(** [x === s] for a string literal [s] *)
Definition equals_string (x : value) (s : string) : bool :=
  match x with JStr s' => String.eqb s' s | _ => false end.

(** [error instanceof Error ? error.message : "Unknown error"] *)
Definition errorMessageOf (error : exn) : string :=
  match error with
  | ErrorObj message => message
  | Thrown _ => "Unknown error"
  end.

Definition rejection (code : float) (message : string) (id : value) : value :=
  JObj [("jsonrpc", JStr "2.0");
        ("error", JObj [("code", JNum code); ("message", JStr message)]);
        ("id", id)].

Definition accepted : value := JObj [("status", JStr "accepted")].

Section Handler.

(** The conversion a template literal applies to a value that is not a
    string (number formatting, [Object.prototype.toString],
    [Array.prototype.join]); it throws a TypeError on an object that cannot
    be converted. *)
Variable ToString : value -> result string.

Definition template (v : value) : result string :=
  match v with
  | JStr s => Ok s
  | _ => ToString v
  end.

Variable connections : gmap string ClientConnection.

(** The body of the [try] block: the events up to its end or up to the
    exception that leaves it, and that exception.  What [console.log] prints
    is left out; its template literal converts the method like the one of
    the reply does. *)
Definition dispatch (client : string) (connection : ClientConnection)
    (message : value) : list event * option exn :=
  if equals_string (get message "method") "tools/list" then
    match listTools (mcpClient connection) with
    | Throw error => ([UpstreamListTools client], Some error)
    | Ok result =>
        match normalizeToolsListResponse
                (JObj [("jsonrpc", JStr "2.0");
                       ("id", get message "id");
                       ("result", JObj [("tools", get (JObj result) "tools")])])
        with
        | Throw error => ([UpstreamListTools client], Some error)
        | Ok normalizedResponse =>
            ([UpstreamListTools client;
              SseWrite client normalizedResponse;
              HttpReply 202 accepted], None)
        end
    end
  else if equals_string (get message "method") "tools/call" then
    match callTool (mcpClient connection) (get message "params") with
    | Throw error => ([UpstreamCallTool client (get message "params")], Some error)
    | Ok result =>
        ([UpstreamCallTool client (get message "params");
          SseWrite client (JObj [("jsonrpc", JStr "2.0");
                                 ("id", get message "id");
                                 ("result", result)]);
          HttpReply 202 accepted], None)
    end
  else
    match template (get message "method") with
    | Throw error => ([], Some error)
    | Ok method =>
        ([HttpReply 501 (rejection (-32601) ("Method not implemented: " +:+ method)
                                   (or_null (get message "id")))], None)
    end.

(** The [catch] block. *)
Definition on_error (client : string) (message : value) (error : exn) : list event :=
  [SseWrite client
     (JObj [("jsonrpc", JStr "2.0");
            ("id", get message "id");
            ("error", JObj [("code", JNum (-32603));
                            ("message",
                             JStr ("Internal error: " +:+ errorMessageOf error))])]);
   HttpReply 500 (JObj [("status", JStr "error");
                        ("message", JStr (errorMessageOf error))])].

(** [app.post("/message", ...)] *)
Definition post_message (req : Request) : list event :=
  match clientId req with
  | None => [HttpReply 400 (rejection (-32600) "Missing clientId parameter" JNull)]
  | Some client =>
      if String.eqb client "" then
        [HttpReply 400 (rejection (-32600) "Missing clientId parameter" JNull)]
      else
        match connections !! client with
        | None => [HttpReply 404 (rejection (-32600) "Client not found" JNull)]
        | Some connection =>
            let message := body req in
            if negb (truthy message) || negb (String.eqb (typeof message) "object") then
              [HttpReply 400 (rejection (-32600) "Invalid JSON-RPC message" JNull)]
            else if negb (truthy (get message "method")) then
              [HttpReply 400 (rejection (-32600) "Missing method field"
                                        (or_null (get message "id")))]
            else
              let (events, thrown) := dispatch client connection message in
              match thrown with
              | None => events
              | Some error => events ++ on_error client message error
              end
        end
  end.

End Handler.

(** The events that reach the upstream server and the client's stream. *)
Definition is_upstream_call (e : event) : bool :=
  match e with
  | UpstreamListTools _ => true
  | UpstreamCallTool _ _ => true
  | _ => false
  end.

Definition is_sse_write (e : event) : bool :=
  match e with SseWrite _ _ => true | _ => false end.

End Proxy.

(** ** sendToClient and the text it writes *)

Module Wire.
Import Js.

Definition quotation_mark : ascii := ascii_of_nat 34.
Definition reverse_solidus : ascii := ascii_of_nat 92.
Definition line_feed : ascii := ascii_of_nat 10.
Definition carriage_return : ascii := ascii_of_nat 13.

Definition hex_digit (n : N) : ascii :=
  match String.get (N.to_nat n) "0123456789abcdef" with
  | Some c => c
  | None => "0"%char
  end.

(** QuoteJSONString, one character at a time, for a string held as UTF-8:
    the quotation mark, the reverse solidus and the control characters are
    escaped, everything else is copied. *)
Definition escape (c : ascii) : string :=
  let n := N_of_ascii c in
  if (n =? 8)%N then String reverse_solidus "b"
  else if (n =? 9)%N then String reverse_solidus "t"
  else if (n =? 10)%N then String reverse_solidus "n"
  else if (n =? 12)%N then String reverse_solidus "f"
  else if (n =? 13)%N then String reverse_solidus "r"
  else if (n =? 34)%N then String reverse_solidus (String quotation_mark "")
  else if (n =? 92)%N then String reverse_solidus (String reverse_solidus "")
  else if (n <? 32)%N then
    String reverse_solidus
      (String "u" (String "0" (String "0"
         (String (hex_digit (n / 16)) (String (hex_digit (n mod 16)) "")))))
  else String c "".

Fixpoint escape_all (s : string) : string :=
  match s with
  | EmptyString => ""
  | String c s' => escape c +:+ escape_all s'
  end.

Definition quote (s : string) : string :=
  String quotation_mark (escape_all s +:+ String quotation_mark "").

Section Stringify.

(** Number::toString for a finite number. *)
Variable number_to_string : float -> string.

(** [JSON.stringify(v)], without replacer and indentation, for values whose
    objects have no callable [toJSON]: [undefined] has no text, an
    [undefined] element of an array is written [null], a member holding
    [undefined] is left out, and a number that is not finite is written
    [null]. *)
Fixpoint stringify (v : value) : option string :=
  match v with
  | JUndefined => None
  | JNull => Some "null"
  | JBool b => Some (if b then "true" else "false")
  | JNum n => Some (if PrimFloat.is_finite n then number_to_string n else "null")
  | JStr s => Some (quote s)
  | JArr l =>
      Some ("[" +:+ String.concat ","
                      (map (fun x => match stringify x with
                                     | Some text => text
                                     | None => "null"
                                     end) l)
            +:+ "]")
  | JObj o =>
      Some ("{" +:+ String.concat ","
                      (flat_map (fun kv => match stringify (snd kv) with
                                           | Some text => [quote (fst kv) +:+ ":" +:+ text]
                                           | None => []
                                           end) o)
            +:+ "}")
  end.

(** [sendToClient(connection, message)]: the text written to the
    connection's response. *)
Definition sendToClient (message : value) : string :=
  "data: "
  +:+ match stringify message with Some data => data | None => "undefined" end
  +:+ String line_feed (String line_feed "").

End Stringify.

(** The JSON data a value is written as. *)
Fixpoint as_json (v : value) : value :=
  match v with
  | JNum n => if PrimFloat.is_finite n then v else JNull
  | JArr l => JArr (map (fun x => if is_undefined x then JNull else as_json x) l)
  | JObj o =>
      JObj (flat_map (fun kv => if is_undefined (snd kv) then []
                                else [(fst kv, as_json (snd kv))]) o)
  | _ => v
  end.

(** A text that holds no line break. *)
Fixpoint one_line (s : string) : bool :=
  match s with
  | EmptyString => true
  | String c s' =>
      negb (Ascii.eqb c line_feed) && negb (Ascii.eqb c carriage_return)
      && one_line s'
  end.

End Wire.

(** ** The /sse handler, the disconnect handlers and /health *)

Module Sse.
Import Js Proxy.

(** What the handlers do besides changing the registry of connections. *)
Inductive action : Type :=
| SetHeader (name value : string)
| Connect (url authorization : string)
| Send (client : string) (message : value)
| Listen (client : string)
| Status (status : Z)
| CloseClient (client : string).

(** The message a stream starts with. *)
Definition initialize : value :=
  JObj [("jsonrpc", JStr "2.0");
        ("id", JNum 0);
        ("result",
         JObj [("protocolVersion", JStr "2024-11-05");
               ("capabilities", JObj []);
               ("serverInfo", JObj [("name", JStr "polar-mcp-proxy");
                                    ("version", JStr "1.0.0")])])].

Record Health : Type := {
  status : string;
  connections : nat;
  polarMcpUrl : string
}.

Section Handlers.

Variable POLAR_MCP_URL : string.
Variable POLAR_API_KEY : string.

(** [app.get("/sse", ...)] for the identifier [generateClientId()] returned,
    the MCP client it constructs and the way [mcpClient.connect] settles. *)
Definition sse (registry : gmap string ClientConnection) (clientId : string)
    (mcpClient : Client) (connected : result unit)
    : gmap string ClientConnection * list action :=
  let headers :=
    [SetHeader "Content-Type" "text/event-stream";
     SetHeader "Cache-Control" "no-cache";
     SetHeader "Connection" "keep-alive";
     SetHeader "X-Accel-Buffering" "no"] in
  let connection := {| Proxy.mcpClient := mcpClient |} in
  let registry := <[clientId := connection]> registry in
  let connecting := Connect POLAR_MCP_URL ("Bearer " +:+ POLAR_API_KEY) in
  match connected with
  | Ok _ =>
      (registry,
       headers ++ [connecting; Send clientId initialize; Listen clientId])
  | Throw _ =>
      (delete clientId registry, headers ++ [connecting; Status 500])
  end.

(** The handlers of the request's [close] and [error] events. *)
Definition disconnect (registry : gmap string ClientConnection) (clientId : string)
    : gmap string ClientConnection * list action :=
  (delete clientId registry, [CloseClient clientId]).

(** [app.get("/health", ...)] *)
Definition health (registry : gmap string ClientConnection) : Health :=
  {| status := "healthy";
     connections := size registry;
     polarMcpUrl := POLAR_MCP_URL |}.

End Handlers.

Definition is_send (a : action) : bool :=
  match a with Send _ _ => true | _ => false end.

End Sse.

(** ** Reading a trace of the /message handler *)

Module Trace.
Import Js Proxy.

Definition is_http_reply (e : event) : bool :=
  match e with HttpReply _ _ => true | _ => false end.

(** The upstream call a message asks for. *)
Definition call_of (client : string) (message : value) (call : event) : Prop :=
  (get message "method" = JStr "tools/list" /\ call = UpstreamListTools client)
  \/ (get message "method" = JStr "tools/call"
      /\ call = UpstreamCallTool client (get message "params")).

Definition no_call (message : value) : Prop :=
  get message "method" <> JStr "tools/list"
  /\ get message "method" <> JStr "tools/call".

End Trace.

(** * Properties *)

(** ** The object model *)

Section ObjectModel.
Import Js.

Lemma key_lt_irrefl k : key_lt k k = false.
Proof.
  unfold key_lt. destruct (array_index k).
  - apply N.ltb_irrefl.
  - now rewrite String.eqb_refl.
Qed.

Lemma key_lt_neq k k' : key_lt k k' = true -> String.eqb k' k = false.
Proof.
  intros H. destruct (String.eqb_spec k' k) as [->|]; [|reflexivity].
  now rewrite key_lt_irrefl in H.
Qed.

Lemma key_lt_not_before k k' : key_lt k k' = true -> key_before k' k = false.
Proof.
  unfold key_lt, key_before.
  destruct (array_index k), (array_index k'); try easy.
  intros H. apply N.ltb_lt in H. apply N.ltb_ge. lia.
Qed.

Lemma ordered_keys_app l1 l2 :
  ordered_keys (l1 ++ l2) = true <->
  ordered_keys l1 = true /\ ordered_keys l2 = true /\
  (forall a b, In a l1 -> In b l2 -> key_lt a b = true).
Proof.
  induction l1 as [|k l1 IH]; simpl.
  - split; [intros H; repeat split; auto; intros a b [] | tauto].
  - rewrite !andb_true_iff, IH, !forallb_forall. split.
    + intros (Hk & H1 & H2 & H12). repeat split; auto.
      * intros x Hx. apply Hk, in_or_app. now left.
      * intros a b [<-|Ha] Hb; [apply Hk, in_or_app; now right | now apply H12].
    + intros ((Hk & H1) & H2 & H12). repeat split; auto.
      intros x Hx. apply in_app_or in Hx as [Hx|Hx]; [now apply Hk | apply H12; auto].
Qed.

Lemma own_get_app o1 o2 k :
  own_get (o1 ++ o2) k =
  match own_get o1 k with Some v => Some v | None => own_get o2 k end.
Proof.
  induction o1 as [|[k' v'] o1 IH]; simpl; [reflexivity|].
  now destruct (String.eqb k k').
Qed.

Lemma own_get_None o k :
  own_get o k = None <-> (forall kv, In kv o -> String.eqb k (fst kv) = false).
Proof.
  induction o as [|[k' v'] o IH]; simpl.
  - split; [intros _ kv [] | reflexivity].
  - destruct (String.eqb k k') eqn:E.
    + split; [discriminate|]. intros H. specialize (H (k', v') (or_introl eq_refl)).
      simpl in H. congruence.
    + rewrite IH. split.
      * intros H kv [<-|Hin]; [exact E | now apply H].
      * intros H kv Hin. apply H. now right.
Qed.

Lemma has_own_false o k :
  has_own o k = false <-> (forall kv, In kv o -> String.eqb k (fst kv) = false).
Proof.
  unfold has_own. rewrite <- own_get_None. destruct (own_get o k); split; congruence.
Qed.

Lemma own_get_In o k v : own_get o k = Some v -> In (k, v) o.
Proof.
  induction o as [|[k' v'] o IH]; simpl; [discriminate|].
  destruct (String.eqb_spec k k') as [->|].
  - intros [= ->]. now left.
  - intros H. right. now apply IH.
Qed.

Lemma overwrite_absent o k v : has_own o k = false -> map (overwrite k v) o = o.
Proof.
  rewrite has_own_false. induction o as [|kv o IH]; simpl; intros H; [reflexivity|].
  rewrite IH by (intros; apply H; now right).
  unfold overwrite. specialize (H kv (or_introl eq_refl)).
  rewrite String.eqb_sym in H. now rewrite H.
Qed.

Lemma map_fst_overwrite o k v : map fst (map (overwrite k v) o) = map fst o.
Proof.
  rewrite map_map. apply map_ext_in. intros kv _. unfold overwrite.
  destruct (String.eqb_spec (fst kv) k); simpl; congruence.
Qed.

(** Where a new property lands: after every property it is not enumerated
    before, and in front of the first one it is enumerated before. *)
Lemma insert_new_app o1 o2 k v :
  (forall kv, In kv o1 -> key_before k (fst kv) = false) ->
  match o2 with [] => True | kv :: _ => key_before k (fst kv) = true end ->
  insert_new (o1 ++ o2) k v = o1 ++ (k, v) :: o2.
Proof.
  intros H1 H2. induction o1 as [|[k' v'] o1 IH]; simpl.
  - destruct o2 as [|[k2 v2] o2]; simpl in *; [reflexivity | now rewrite H2].
  - pose proof (H1 (k', v') (or_introl eq_refl)) as E. simpl in E. rewrite E.
    rewrite IH; [reflexivity|]. intros kv Hin. apply H1. now right.
Qed.

Lemma define_own_new o1 o2 k v :
  has_own (o1 ++ o2) k = false ->
  (forall kv, In kv o1 -> key_before k (fst kv) = false) ->
  match o2 with [] => True | kv :: _ => key_before k (fst kv) = true end ->
  define_own (o1 ++ o2) k v = o1 ++ (k, v) :: o2.
Proof.
  intros H H1 H2. unfold define_own. rewrite H. now apply insert_new_app.
Qed.

Lemma has_own_app o1 o2 k : has_own (o1 ++ o2) k = has_own o1 k || has_own o2 k.
Proof. unfold has_own. rewrite own_get_app. now destruct (own_get o1 k). Qed.

Lemma has_own_overwrite o k v k' : has_own (map (overwrite k v) o) k' = has_own o k'.
Proof.
  unfold has_own. induction o as [|[k0 v0] o IH]; simpl; [reflexivity|].
  unfold overwrite at 1. simpl.
  destruct (String.eqb_spec k0 k) as [->|]; simpl; now destruct (String.eqb k' _).
Qed.

Lemma index_named_neq a b :
  is_index a = true -> is_index b = false -> String.eqb (fst a) (fst b) = false.
Proof.
  unfold is_index. intros Ha Hb.
  destruct (String.eqb_spec (fst a) (fst b)) as [E|]; [|reflexivity].
  rewrite E in Ha. now destruct (array_index (fst b)).
Qed.

Lemma index_before_named a b :
  is_index a = true -> is_index b = false -> key_before (fst a) (fst b) = true.
Proof.
  unfold is_index, key_before.
  now destruct (array_index (fst a)), (array_index (fst b)).
Qed.

Lemma named_never_before k k' : array_index k = None -> key_before k k' = false.
Proof. unfold key_before. now intros ->. Qed.

Lemma ordered_In_lt (o1 o2 : props) a b :
  ordered_keys (map fst (o1 ++ o2)) = true ->
  In a o1 -> In b o2 -> key_lt (fst a) (fst b) = true.
Proof.
  rewrite map_app, ordered_keys_app. intros (_ & _ & H) Ha Hb.
  apply H; now apply in_map.
Qed.

Lemma ordered_absent (o1 o2 : props) k v :
  ordered_keys (map fst (o1 ++ (k, v) :: o2)) = true ->
  has_own o1 k = false /\ has_own o2 k = false.
Proof.
  intros H. split; apply has_own_false; intros kv Hin.
  - apply (key_lt_neq (fst kv) k).
    apply (ordered_In_lt o1 ((k, v) :: o2) kv (k, v) H Hin). now left.
  - rewrite map_app, ordered_keys_app in H. destruct H as (_ & H & _).
    simpl in H. apply andb_true_iff in H as [H _]. rewrite forallb_forall in H.
    rewrite String.eqb_sym. apply key_lt_neq, H. now apply in_map.
Qed.

(** Defining array indices on an object that has none after [o1]: they
    line up behind [o1], in front of the named properties. *)
Lemma define_all_index l2 : forall l1 B,
  (forall kv, In kv l2 -> is_index kv = true) ->
  (forall kv, In kv B -> is_index kv = false) ->
  ordered_keys (map fst (l1 ++ l2)) = true ->
  define_all (l1 ++ B) l2 = l1 ++ l2 ++ B.
Proof.
  induction l2 as [|[k v] l2 IH]; intros l1 B H2 HB Hord; [reflexivity|].
  unfold define_all. simpl. fold (define_all (define_own (l1 ++ B) k v) l2).
  assert (Hk : is_index (k, v) = true) by (apply H2; now left).
  rewrite define_own_new.
  - replace (l1 ++ (k, v) :: B) with ((l1 ++ [(k, v)]) ++ B)
      by now rewrite <- app_assoc.
    rewrite IH; [now rewrite <- app_assoc | | exact HB | now rewrite <- app_assoc].
    intros kv Hin. apply H2. now right.
  - rewrite has_own_app. apply orb_false_iff. split.
    + now apply (ordered_absent l1 l2 k v).
    + apply has_own_false. intros kv Hin.
      apply (index_named_neq (k, v) kv Hk). now apply HB.
  - intros kv Hin. apply key_lt_not_before.
    apply (ordered_In_lt l1 ((k, v) :: l2) kv (k, v) Hord Hin). now left.
  - destruct B as [|b B]; [exact I|].
    apply (index_before_named (k, v) b Hk). apply HB. now left.
Qed.

Lemma merged_nil B : merged B [] = B.
Proof. unfold merged. simpl. rewrite <- (map_id B) at 2. apply map_ext. now intros []. Qed.

(** Defining named properties: one that the object has keeps its place,
    a new one goes to the end. *)
Lemma define_all_named R : forall l B A,
  (forall kv, In kv R -> is_index kv = false) ->
  (forall kv, In kv l -> is_index kv = true) ->
  ordered_keys (map fst (A ++ R)) = true ->
  define_all (l ++ B ++ A) R =
  l ++ merged B R ++ A ++ List.filter (fun kv => negb (has_own B (fst kv))) R.
Proof.
  induction R as [|[k v] R IH]; intros l B A HR Hl Hord.
  - unfold define_all. simpl. now rewrite merged_nil, app_nil_r.
  - unfold define_all. simpl. fold (define_all (define_own (l ++ B ++ A) k v) R).
    assert (Hk : is_index (k, v) = false) by (apply HR; now left).
    assert (Hlk : has_own l k = false).
    { apply has_own_false. intros kv Hin. rewrite String.eqb_sym.
      apply (index_named_neq kv (k, v)); auto. }
    destruct (ordered_absent A R k v Hord) as [HAk HRk].
    destruct (has_own B k) eqn:HBk; simpl.
    + unfold define_own. rewrite !has_own_app, HBk, Hlk. simpl.
      rewrite !map_app, (overwrite_absent l), (overwrite_absent A) by assumption.
      rewrite IH.
      * f_equal. f_equal.
        -- unfold merged. rewrite map_map. apply map_ext. intros [b bv].
           unfold overwrite. simpl. destruct (String.eqb_spec b k) as [->|]; simpl.
           ++ unfold has_own in HRk. now destruct (own_get R k).
           ++ reflexivity.
        -- f_equal. apply filter_ext. intros kv. now rewrite has_own_overwrite.
      * intros kv Hin. apply HR. now right.
      * exact Hl.
      * rewrite map_app in *. apply ordered_keys_app in Hord as (H1 & H2 & H3).
        apply ordered_keys_app. simpl in H2. apply andb_true_iff in H2 as [_ H2].
        repeat split; auto. intros a b Ha Hb. apply H3; simpl; auto.
    + rewrite <- (app_nil_r (l ++ B ++ A)) at 1. rewrite define_own_new.
      * replace ((l ++ B ++ A) ++ [(k, v)]) with (l ++ B ++ (A ++ [(k, v)]))
          by now rewrite <- !app_assoc.
        rewrite IH.
        -- f_equal. rewrite <- !app_assoc. simpl. f_equal.
           unfold merged. apply map_ext_in. intros [b bv] Hin. simpl.
           destruct (String.eqb_spec b k) as [->|]; [|reflexivity].
           apply has_own_false with (kv := (k, bv)) in HBk; [|exact Hin].
           simpl in HBk. now rewrite String.eqb_refl in HBk.
        -- intros kv Hin. apply HR. now right.
        -- exact Hl.
        -- now rewrite <- app_assoc.
      * now rewrite app_nil_r, !has_own_app, Hlk, HBk, HAk.
      * intros kv _. apply named_never_before. unfold is_index in Hk. simpl in Hk.
        now destruct (array_index k).
      * exact I.
Qed.

Lemma filter_all {A} (p : A -> bool) l :
  (forall x, In x l -> p x = true) -> List.filter p l = l.
Proof.
  induction l as [|x l IH]; simpl; intros H; [reflexivity|].
  rewrite (H x) by now left. f_equal. apply IH. intros; apply H; now right.
Qed.

Lemma filter_none {A} (p : A -> bool) l :
  (forall x, In x l -> p x = false) -> List.filter p l = [].
Proof.
  induction l as [|x l IH]; simpl; intros H; [reflexivity|].
  rewrite (H x) by now left. apply IH. intros; apply H; now right.
Qed.

Lemma In_filter {A} (p : A -> bool) l x : In x (List.filter p l) -> In x l /\ p x = true.
Proof. apply List.filter_In. Qed.

(** In an ordered object nothing but named properties follows a named one. *)
Lemma ordered_after_named kv o :
  ordered_keys (map fst (kv :: o)) = true -> is_index kv = false ->
  forall x, In x o -> is_index x = false.
Proof.
  simpl. intros H Hkv x Hx. apply andb_true_iff in H as [H _].
  rewrite forallb_forall in H. specialize (H (fst x) (in_map fst _ _ Hx)).
  unfold is_index, key_lt in *.
  now destruct (array_index (fst kv)), (array_index (fst x)).
Qed.

Lemma ordered_tail k ks : ordered_keys (k :: ks) = true -> ordered_keys ks = true.
Proof. simpl. intros H. now apply andb_true_iff in H. Qed.

(** An ordered object is its array indices followed by its named properties. *)
Lemma ordered_split o :
  ordered_keys (map fst o) = true -> o = index_part o ++ named_part o.
Proof.
  unfold index_part, named_part.
  induction o as [|kv o IH]; intros H; [reflexivity|].
  simpl. unfold is_named at 1. destruct (is_index kv) eqn:E; simpl.
  - f_equal. apply IH. exact (ordered_tail _ _ H).
  - rewrite filter_none by exact (ordered_after_named kv o H E).
    simpl. f_equal. symmetry. apply filter_all. intros x Hx.
    unfold is_named. now rewrite (ordered_after_named kv o H E x Hx).
Qed.

Lemma ordered_filter (p : string * value -> bool) o :
  ordered_keys (map fst o) = true -> ordered_keys (map fst (List.filter p o)) = true.
Proof.
  induction o as [|kv o IH]; intros H; [reflexivity|].
  simpl in *. apply andb_true_iff in H as [H1 H2]. destruct (p kv); simpl; auto.
  rewrite IH by assumption. rewrite andb_true_r. rewrite forallb_forall in *.
  intros k Hk. apply in_map_iff in Hk as (x & <- & Hx). apply In_filter in Hx as [Hx _].
  apply H1. now apply in_map.
Qed.

Lemma own_get_index_part o k : array_index k = None -> own_get (index_part o) k = None.
Proof.
  intros Hk. apply own_get_None. intros kv Hin.
  apply In_filter in Hin as [_ Hin]. unfold is_index in Hin.
  destruct (String.eqb_spec k (fst kv)) as [->|]; [|reflexivity].
  now rewrite Hk in Hin.
Qed.

(** The closed form of a run of property definitions: what
    [{ ...base, ...o }] is for a [base] of named properties. *)
Lemma define_all_ordered B o :
  ordered_keys (map fst o) = true ->
  (forall kv, In kv B -> is_index kv = false) ->
  define_all B o =
  index_part o ++ merged B o
  ++ List.filter (fun kv => negb (has_own B (fst kv))) (named_part o).
Proof.
  intros Hord HB.
  assert (Hsplit := ordered_split o Hord).
  assert (Hord' := Hord). rewrite Hsplit, map_app in Hord'.
  apply ordered_keys_app in Hord' as (HI & HR & _).
  rewrite Hsplit at 1. unfold define_all. rewrite fold_left_app.
  fold (define_all B (index_part o)).
  fold (define_all (define_all B (index_part o)) (named_part o)).
  change (define_all B (index_part o)) with (define_all ([] ++ B) (index_part o)).
  rewrite (define_all_index (index_part o) [] B); simpl.
  - rewrite <- (app_nil_r B) at 1.
    rewrite (define_all_named (named_part o) (index_part o) B []); simpl.
    + f_equal. f_equal. unfold merged. apply map_ext_in. intros [b bv] Hb. simpl.
      rewrite Hsplit at 2. rewrite own_get_app, own_get_index_part; [reflexivity|].
      specialize (HB _ Hb). unfold is_index in HB. simpl in HB.
      now destruct (array_index b).
    + intros kv Hin. apply In_filter in Hin as [_ Hin]. unfold is_named in Hin.
      now destruct (is_index kv).
    + intros kv Hin. now apply In_filter in Hin.
    + exact HR.
  - intros kv Hin. now apply In_filter in Hin.
  - exact HB.
  - exact HI.
Qed.

(** Spreading an object into an empty literal copies it. *)
Lemma spread_copy o : ordered_keys (map fst o) = true -> spread [] (JObj o) = o.
Proof.
  intros H. unfold spread. simpl. rewrite define_all_ordered by (auto; intros ? []).
  simpl. rewrite filter_all by reflexivity. symmetry. now apply ordered_split.
Qed.

(** Redefining a property an object has changes no key and no position. *)
Lemma define_own_keys o k v :
  has_own o k = true -> map fst (define_own o k v) = map fst o.
Proof. intros H. unfold define_own. rewrite H. apply map_fst_overwrite. Qed.

(** *** Definitions keep objects ordered *)

Lemma array_index_inj k k' n :
  array_index k = Some n -> array_index k' = Some n -> k = k'.
Proof.
  unfold array_index. intros H H'.
  destruct (NilZero.uint_of_string k) as [u|]; [|discriminate].
  destruct (NilZero.uint_of_string k') as [u'|]; [|discriminate].
  cbv zeta in *.
  destruct (_ && _) eqn:E in H; [|discriminate].
  destruct (_ && _) eqn:E' in H'; [|discriminate].
  injection H as H. injection H' as H'.
  apply andb_true_iff in E as [E _]. apply andb_true_iff in E' as [E' _].
  apply String.eqb_eq in E, E'. congruence.
Qed.

Lemma key_lt_total k k' :
  String.eqb k k' = false -> key_before k k' = false -> key_lt k' k = true.
Proof.
  unfold key_before, key_lt. intros Hne Hb.
  destruct (array_index k) as [n|] eqn:E, (array_index k') as [n'|] eqn:E'; try easy.
  - apply N.ltb_ge in Hb. apply N.ltb_lt.
    assert (n <> n'); [|lia]. intros ->.
    rewrite (array_index_inj _ _ _ E E'), String.eqb_refl in Hne. discriminate.
  - now rewrite String.eqb_sym, Hne.
Qed.

Lemma key_before_trans k k' x :
  key_before k k' = true -> key_lt k' x = true -> key_lt k x = true.
Proof.
  unfold key_before, key_lt.
  destruct (array_index k), (array_index k'), (array_index x); try easy.
  rewrite !N.ltb_lt. lia.
Qed.

Lemma In_insert_new o k v x : In x (insert_new o k v) -> x = (k, v) \/ In x o.
Proof.
  induction o as [|[k' v'] o IH]; simpl.
  - intros [<-|[]]. now left.
  - destruct (key_before k k'); simpl.
    + intros [<-|[<-|H]]; auto.
    + intros [<-|H]; auto. destruct (IH H); auto.
Qed.

Lemma insert_new_ordered o k v :
  has_own o k = false -> ordered_keys (map fst o) = true ->
  ordered_keys (map fst (insert_new o k v)) = true.
Proof.
  induction o as [|[k' v'] o IH]; intros Hk Hord; [reflexivity|].
  assert (Hne : String.eqb k k' = false).
  { apply has_own_false with (kv := (k', v')) in Hk; [exact Hk | now left]. }
  assert (Hk' : has_own o k = false).
  { apply has_own_false. intros kv Hin.
    apply has_own_false with (kv := kv) in Hk; [exact Hk | now right]. }
  simpl in Hord. apply andb_true_iff in Hord as [H1 H2]. rewrite forallb_forall in H1.
  simpl. destruct (key_before k k') eqn:Hb.
  - simpl. rewrite H2, andb_true_r.
    assert (Hkk' : key_lt k k' = true).
    { unfold key_before, key_lt in *.
      now destruct (array_index k), (array_index k'). }
    rewrite Hkk'. simpl. apply andb_true_iff. split.
    + apply forallb_forall. intros x Hx. apply (key_before_trans k k' x Hb). now apply H1.
    + apply forallb_forall. exact H1.
  - simpl. rewrite IH by assumption. rewrite andb_true_r. apply forallb_forall.
    intros x Hx. apply in_map_iff in Hx as (kv & <- & Hin).
    apply In_insert_new in Hin as [->|Hin].
    + simpl. now apply key_lt_total.
    + apply H1. now apply in_map.
Qed.

Lemma define_own_ordered o k v :
  ordered_keys (map fst o) = true -> ordered_keys (map fst (define_own o k v)) = true.
Proof.
  intros H. unfold define_own. destruct (has_own o k) eqn:E.
  - now rewrite map_fst_overwrite.
  - now apply insert_new_ordered.
Qed.

Lemma assign_ordered o k v :
  ordered_keys (map fst o) = true -> ordered_keys (map fst (assign o k v)) = true.
Proof.
  intros H. unfold assign. destruct (String.eqb k "__proto__"); [exact H|].
  now apply define_own_ordered.
Qed.

Lemma define_all_keeps_order l : forall base,
  ordered_keys (map fst base) = true ->
  ordered_keys (map fst (define_all base l)) = true.
Proof.
  induction l as [|[k v] l IH]; intros base H; [exact H|].
  apply IH. now apply define_own_ordered.
Qed.

End ObjectModel.

(** ** The schema normalizer *)

Section InputSchema.
Import Js SchemaNormalizer.

Lemma wf_ordered o : wf (JObj o) = true -> ordered_keys (map fst o) = true.
Proof. simpl. intros H. now apply andb_true_iff in H. Qed.

Lemma wf_prop o k v : wf (JObj o) = true -> own_get o k = Some v -> wf v = true.
Proof.
  simpl. intros H Hk. apply andb_true_iff in H as [_ H].
  rewrite forallb_forall in H. exact (H (k, v) (own_get_In o k v Hk)).
Qed.

Lemma wf_get v k : wf v = true -> wf (get v k) = true.
Proof.
  destruct v as [| | | | | |o]; try reflexivity. simpl get. intros H.
  destruct (own_get o k) eqn:E; [|reflexivity]. exact (wf_prop _ _ _ H E).
Qed.

(** Only an object with own properties can need normalization. *)
Lemma needs_normalization_object s :
  schemaNeedsNormalization s = true -> exists o, s = JObj o.
Proof.
  destruct s; intros H; try (cbv in H; discriminate). eauto.
Qed.

Lemma not_normalized s : schemaNeedsNormalization s = false -> normalizeInputSchema s = s.
Proof. unfold normalizeInputSchema. now intros ->. Qed.

(** A schema whose [type] is truthy is returned as it is. *)
Lemma normalizeInputSchema_truthy_type s :
  truthy (get s "type") = true -> normalizeInputSchema s = s.
Proof.
  intros H. apply not_normalized. unfold schemaNeedsNormalization.
  rewrite H. simpl. now destruct (not_an_object s).
Qed.

(** The object literal [{ type: "object", ...schema }] in closed form. *)
Lemma spread_onto_type o :
  ordered_keys (map fst o) = true ->
  spread [("type", JStr "object")] (JObj o) =
  index_part o
  ++ ("type", match own_get o "type" with Some v => v | None => JStr "object" end)
  :: List.filter (fun kv => negb (String.eqb (fst kv) "type")) (named_part o).
Proof.
  intros H. unfold spread. simpl entries. rewrite define_all_ordered; auto.
  - simpl. do 2 f_equal. apply filter_ext. intros kv. unfold has_own. simpl.
    now destruct (String.eqb (fst kv) "type").
  - intros kv [<-|[]]. reflexivity.
Qed.

Lemma filter_not_type_absent o :
  own_get o "type" = None ->
  List.filter (fun kv => negb (String.eqb (fst kv) "type")) (named_part o) = named_part o.
Proof.
  intros H. apply filter_all. intros kv Hin. apply In_filter in Hin as [Hin _].
  rewrite own_get_None in H. rewrite String.eqb_sym, (H kv Hin). reflexivity.
Qed.

(** C1 (as amended): on a well-formed schema object without a [type] key whose
    [properties] key holds a value (anything but [undefined]),
    normalizeInputSchema returns the schema's array-index properties, then
    [type: "object"], then the schema's named properties, every existing
    property verbatim and in its place relative to the others; so [type] is in
    front of all existing keys when the schema has no array-index key.  On a
    schema object with neither [type] nor [properties] it returns its
    argument. *)
Theorem normalizeInputSchema_missing_type (o : props) :
  wf (JObj o) = true ->
  own_get o "type" = None ->
  (forall p, own_get o "properties" = Some p -> p <> JUndefined ->
     normalizeInputSchema (JObj o)
     = JObj (index_part o ++ ("type", JStr "object") :: named_part o)
     /\ o = index_part o ++ named_part o
     /\ (index_part o = [] ->
         normalizeInputSchema (JObj o) = JObj (("type", JStr "object") :: o)))
  /\ (own_get o "properties" = None -> normalizeInputSchema (JObj o) = JObj o).
Proof.
  intros Hwf Htype. apply wf_ordered in Hwf. split.
  - intros p Hp Hdef.
    assert (E : normalizeInputSchema (JObj o)
                = JObj (index_part o ++ ("type", JStr "object") :: named_part o)).
    { unfold normalizeInputSchema, schemaNeedsNormalization. simpl.
      rewrite Htype, Hp. simpl.
      replace (is_undefined p) with false by (destruct p; simpl; congruence).
      simpl. rewrite spread_onto_type, Htype, filter_not_type_absent; auto. }
    split; [exact E|]. split; [now apply ordered_split|].
    intros Hidx. rewrite E, Hidx. simpl. do 2 f_equal.
    rewrite (ordered_split o Hwf) at 2. now rewrite Hidx.
  - intros Hp. apply not_normalized. unfold schemaNeedsNormalization. simpl.
    now rewrite Htype, Hp.
Qed.

Lemma normalizeInputSchema_missing_type_witness :
  normalizeInputSchema
    (JObj [("properties", JObj [("product_id", JObj [("type", JStr "string")])]);
           ("required", JArr [JStr "product_id"])])
  = JObj [("type", JStr "object");
          ("properties", JObj [("product_id", JObj [("type", JStr "string")])]);
          ("required", JArr [JStr "product_id"])]
  /\ normalizeInputSchema (JObj [("required", JArr [JStr "x"])])
     = JObj [("required", JArr [JStr "x"])].
Proof.
  split.
  - refine (proj2 (proj2 (proj1
      (normalizeInputSchema_missing_type
         [("properties", JObj [("product_id", JObj [("type", JStr "string")])]);
          ("required", JArr [JStr "product_id"])] eq_refl eq_refl)
      (JObj [("product_id", JObj [("type", JStr "string")])]) eq_refl _)) eq_refl).
    discriminate.
  - exact (proj2 (normalizeInputSchema_missing_type
                    [("required", JArr [JStr "x"])] eq_refl eq_refl) eq_refl).
Defined.

(** C1, the claim as the specification words it, fails: an array-index key of
    the schema stays in front of the inserted [type]. *)
Lemma normalizeInputSchema_type_not_first :
  let schema := JObj [("0", JNull); ("properties", JObj [])] in
  wf schema = true
  /\ is_json schema = true
  /\ own_get (entries schema) "type" = None
  /\ own_get (entries schema) "properties" = Some (JObj [])
  /\ normalizeInputSchema schema
     = JObj [("0", JNull); ("type", JStr "object"); ("properties", JObj [])]
  /\ normalizeInputSchema schema
     <> JObj (("type", JStr "object") :: entries schema).
Proof. repeat split; discriminate. Qed.

(** C2: the code at a schema whose [type] is present and falsy: the members
    come back in a different order. *)
Theorem normalizeInputSchema_falsy_type_reordered :
  let schema := JObj [("properties", JObj []); ("type", JStr "")] in
  wf schema = true
  /\ is_json schema = true
  /\ own_get (entries schema) "type" = Some (JStr "")
  /\ normalizeInputSchema schema = JObj [("type", JStr ""); ("properties", JObj [])]
  /\ normalizeInputSchema schema <> schema.
Proof. repeat split; discriminate. Qed.

(** The cases the specification lists. *)
Example trigger_empty_properties :
  normalizeInputSchema (JObj [("properties", JObj [])])
  = JObj [("type", JStr "object"); ("properties", JObj [])].
Proof. reflexivity. Qed.

Example trigger_empty_schema : normalizeInputSchema (JObj []) = JObj [].
Proof. reflexivity. Qed.

Example trigger_required_only :
  normalizeInputSchema (JObj [("required", JArr [JStr "x"])])
  = JObj [("required", JArr [JStr "x"])].
Proof. reflexivity. Qed.

Example trigger_null_properties :
  normalizeInputSchema (JObj [("properties", JNull)])
  = JObj [("type", JStr "object"); ("properties", JNull)].
Proof. reflexivity. Qed.

(** *** Idempotence of normalizeInputSchema *)

Lemma index_part_app o1 o2 : index_part (o1 ++ o2) = index_part o1 ++ index_part o2.
Proof. apply List.filter_app. Qed.

Lemma named_part_app o1 o2 : named_part (o1 ++ o2) = named_part o1 ++ named_part o2.
Proof. apply List.filter_app. Qed.

Lemma index_part_idem o : index_part (index_part o) = index_part o.
Proof. apply filter_all. intros x Hx. now apply In_filter in Hx. Qed.

Lemma named_part_index o : named_part (index_part o) = [].
Proof.
  apply filter_none. intros x Hx. apply In_filter in Hx as [_ Hx].
  unfold is_named. now rewrite Hx.
Qed.

Lemma index_part_named (p : string * value -> bool) o :
  index_part (List.filter p (named_part o)) = [].
Proof.
  apply filter_none. intros x Hx. apply In_filter in Hx as [Hx _].
  apply In_filter in Hx as [_ Hx]. unfold is_named in Hx. now destruct (is_index x).
Qed.

Lemma named_part_named (p : string * value -> bool) o :
  named_part (List.filter p (named_part o)) = List.filter p (named_part o).
Proof.
  apply filter_all. intros x Hx. apply In_filter in Hx as [Hx _].
  now apply In_filter in Hx.
Qed.

Lemma filter_idem {A} (p : A -> bool) l : List.filter p (List.filter p l) = List.filter p l.
Proof. apply filter_all. intros x Hx. now apply In_filter in Hx. Qed.

Lemma normalized_schema_fixed o :
  ordered_keys (map fst o) = true ->
  normalizeInputSchema (JObj (spread [("type", JStr "object")] (JObj o)))
  = JObj (spread [("type", JStr "object")] (JObj o)).
Proof.
  intros H.
  destruct (schemaNeedsNormalization (JObj (spread [("type", JStr "object")] (JObj o))))
    eqn:E; [|now apply not_normalized].
  unfold normalizeInputSchema. rewrite E. simpl negb. cbv iota. f_equal.
  assert (Hord : ordered_keys (map fst (spread [("type", JStr "object")] (JObj o))) = true)
    by (apply define_all_keeps_order; reflexivity).
  rewrite (spread_onto_type _ Hord).
  rewrite (spread_onto_type o H).
  set (tv := match own_get o "type" with Some v => v | None => JStr "object" end).
  set (rest := List.filter _ (named_part o)).
  rewrite index_part_app, index_part_idem, own_get_app, own_get_index_part by reflexivity.
  rewrite named_part_app, named_part_index.
  change (("type", tv) :: rest) with ([("type", tv)] ++ rest).
  rewrite index_part_app, named_part_app. unfold rest at 1 3.
  rewrite index_part_named, named_part_named. fold rest. simpl.
  rewrite app_nil_r. do 2 f_equal. unfold rest. apply filter_idem.
Qed.

Lemma normalizeInputSchema_idempotent s :
  wf s = true ->
  normalizeInputSchema (normalizeInputSchema s) = normalizeInputSchema s.
Proof.
  intros Hwf. destruct (schemaNeedsNormalization s) eqn:E.
  - destruct (needs_normalization_object s E) as [o ->].
    unfold normalizeInputSchema at 2 3. rewrite E. simpl negb. cbv iota.
    apply normalized_schema_fixed. now apply wf_ordered.
  - now rewrite !(not_normalized s E).
Qed.

End InputSchema.

Section Tool.
Import Js SchemaNormalizer.

Lemma fold_left_filter {A B} (f : A -> B -> A) (p : B -> bool) l : forall a,
  fold_left (fun acc x => if p x then f acc x else acc) l a
  = fold_left f (List.filter p l) a.
Proof.
  induction l as [|x l IH]; intros a; simpl; [reflexivity|].
  destruct (p x); simpl; apply IH.
Qed.

Lemma passthrough_loop o base :
  fold_left (fun acc kv => if passthrough_key (fst kv)
                           then assign acc (fst kv) (snd kv) else acc) o base
  = define_all base (List.filter copied o).
Proof.
  unfold define_all. rewrite <- fold_left_filter. revert base.
  induction o as [|[k v] o IH]; intros base; simpl; [reflexivity|].
  unfold copied, assign. simpl.
  destruct (passthrough_key k), (String.eqb k "__proto__"); simpl; apply IH.
Qed.

Lemma filter_swap {A} (p q : A -> bool) l :
  List.filter p (List.filter q l) = List.filter q (List.filter p l).
Proof.
  induction l as [|x l IH]; simpl; [reflexivity|].
  destruct (p x) eqn:Ep, (q x) eqn:Eq; simpl; rewrite ?Ep, ?Eq, IH; reflexivity.
Qed.

Lemma index_is_copied kv : is_index kv = true -> copied kv = true.
Proof.
  unfold is_index, copied, passthrough_key. simpl. intros H.
  destruct (String.eqb_spec (fst kv) "name") as [E|_];
    [rewrite E in H; discriminate|].
  destruct (String.eqb_spec (fst kv) "description") as [E|_];
    [rewrite E in H; discriminate|].
  destruct (String.eqb_spec (fst kv) "inputSchema") as [E|_];
    [rewrite E in H; discriminate|].
  destruct (String.eqb_spec (fst kv) "__proto__") as [E|_];
    [rewrite E in H; discriminate|].
  reflexivity.
Qed.

Lemma copied_not_reserved kv n d s :
  copied kv = true ->
  has_own [("name", n); ("description", d); ("inputSchema", s)] (fst kv) = false.
Proof.
  unfold copied, passthrough_key, has_own. simpl. intros H.
  apply andb_true_iff in H as [H _].
  destruct (String.eqb (fst kv) "name"); [discriminate|].
  destruct (String.eqb (fst kv) "description"); [discriminate|].
  destruct (String.eqb (fst kv) "inputSchema"); [discriminate|]. reflexivity.
Qed.

Lemma own_get_copied o k :
  passthrough_key k = false -> own_get (List.filter copied o) k = None.
Proof.
  intros Hk. apply own_get_None. intros kv Hin. apply In_filter in Hin as [_ Hin].
  destruct (String.eqb_spec k (fst kv)) as [->|]; [|reflexivity].
  unfold copied in Hin. now rewrite Hk in Hin.
Qed.

(** The descriptor under construction after the loop. *)
Lemma descriptor_closed o n d s :
  ordered_keys (map fst o) = true ->
  define_all [("name", n); ("description", d); ("inputSchema", s)]
             (List.filter copied o)
  = descriptor o n d s.
Proof.
  intros H. rewrite define_all_ordered.
  - unfold descriptor, extras, index_part, named_part. f_equal.
    + rewrite filter_swap. apply filter_all. intros kv Hin.
      apply In_filter in Hin as [_ Hin]. now apply index_is_copied.
    + f_equal.
      * unfold merged. simpl. now rewrite !own_get_copied by reflexivity.
      * rewrite (filter_swap is_named). apply filter_all. intros kv Hin.
        apply In_filter in Hin as [_ Hin].
        now rewrite (copied_not_reserved kv n d s Hin).
  - now apply ordered_filter.
  - intros kv [<-|[<-|[<-|[]]]]; reflexivity.
Qed.

Lemma normalizeTool_rejected tool :
  rejected tool = true -> exists msg, normalizeTool tool = Throw (ErrorObj msg).
Proof.
  unfold rejected, normalizeTool. intros H.
  destruct (not_an_object tool); [eauto|].
  destruct (String.eqb (typeof (get tool "name")) "string"); [|eauto].
  simpl in H. apply andb_true_iff in H as [-> ->]. simpl. eauto.
Qed.

Lemma accepted_object tool : rejected tool = false -> exists o, tool = JObj o.
Proof.
  unfold rejected. intros H. apply orb_false_iff in H as [H _].
  apply orb_false_iff in H as [_ H].
  destruct tool; try discriminate. eauto.
Qed.

Lemma assign_inputSchema n d s0 s :
  assign [("name", n); ("description", d); ("inputSchema", s0)] "inputSchema" s
  = [("name", n); ("description", d); ("inputSchema", s)].
Proof. reflexivity. Qed.

Lemma normalizeTool_accepted_raw tool :
  rejected tool = false ->
  normalizeTool tool
  = Ok (JObj (define_all [("name", get tool "name");
                          ("description", descriptionOf tool);
                          ("inputSchema", inputSchemaOf tool)]
                         (List.filter copied (entries tool)))).
Proof.
  intros H. unfold rejected in H.
  apply orb_false_iff in H as [H Hs]. apply orb_false_iff in H as [Ho Hn].
  apply negb_false_iff in Hn.
  unfold normalizeTool, inputSchemaOf. rewrite Ho, Hn. cbn [negb].
  fold (descriptionOf tool).
  destruct (is_undefined (get tool "inputSchema")) eqn:Eu; cbn [negb].
  - cbn [bind]. now rewrite passthrough_loop, assign_inputSchema.
  - cbn [negb andb] in Hs. rewrite Hs. cbn [bind].
    now rewrite passthrough_loop, assign_inputSchema.
Qed.

Lemma normalizeTool_accepted o :
  ordered_keys (map fst o) = true ->
  rejected (JObj o) = false ->
  normalizeTool (JObj o)
  = Ok (JObj (descriptor o (get (JObj o) "name") (descriptionOf (JObj o))
                         (inputSchemaOf (JObj o)))).
Proof.
  intros Hord H. rewrite (normalizeTool_accepted_raw _ H). cbn [entries].
  now rewrite descriptor_closed.
Qed.

Lemma normalizeTool_Ok_accepted tool d : normalizeTool tool = Ok d -> rejected tool = false.
Proof.
  intros H. destruct (rejected tool) eqn:E; [|reflexivity].
  destruct (normalizeTool_rejected tool E) as [msg Hm]. congruence.
Qed.

(** *** What a definition does to the other properties *)

Lemma own_get_insert_new_other o k v k' :
  String.eqb k' k = false -> own_get (insert_new o k v) k' = own_get o k'.
Proof.
  intros Hne. induction o as [|[k0 v0] o IH]; simpl.
  - now rewrite Hne.
  - destruct (key_before k k0); simpl; [now rewrite Hne | now rewrite IH].
Qed.

Lemma own_get_overwrite_other o k v k' :
  String.eqb k' k = false -> own_get (map (overwrite k v) o) k' = own_get o k'.
Proof.
  intros Hne. induction o as [|[k0 v0] o IH]; simpl; [reflexivity|].
  unfold overwrite at 1. simpl. destruct (String.eqb_spec k0 k) as [->|]; simpl.
  - now rewrite Hne.
  - now rewrite IH.
Qed.

Lemma own_get_define_other o k v k' :
  String.eqb k' k = false -> own_get (define_own o k v) k' = own_get o k'.
Proof.
  intros Hne. unfold define_own. destruct (has_own o k).
  - now apply own_get_overwrite_other.
  - now apply own_get_insert_new_other.
Qed.

Lemma own_get_define_all_other l : forall base k',
  (forall kv, In kv l -> String.eqb k' (fst kv) = false) ->
  own_get (define_all base l) k' = own_get base k'.
Proof.
  induction l as [|[k v] l IH]; intros base k' H; [reflexivity|].
  unfold define_all. simpl. fold (define_all (define_own base k v) l).
  rewrite IH by (intros; apply H; now right).
  apply own_get_define_other. exact (H (k, v) (or_introl eq_refl)).
Qed.

(** The three members normalizeTool sets are not overwritten by the loop. *)
Lemma normalizeTool_members tool d :
  normalizeTool tool = Ok d ->
  own_get (entries d) "name" = Some (get tool "name")
  /\ own_get (entries d) "description" = Some (descriptionOf tool)
  /\ own_get (entries d) "inputSchema" = Some (inputSchemaOf tool).
Proof.
  intros H. assert (Hacc := normalizeTool_Ok_accepted _ _ H).
  rewrite (normalizeTool_accepted_raw _ Hacc) in H. injection H as <-.
  cbn [entries].
  repeat split; (rewrite own_get_define_all_other; [reflexivity|]);
    intros kv Hin; apply In_filter in Hin as [_ Hin];
    unfold copied, passthrough_key in Hin; simpl in Hin;
    apply andb_true_iff in Hin as [Hin _].
  - rewrite String.eqb_sym. now destruct (String.eqb (fst kv) "name").
  - rewrite String.eqb_sym. destruct (String.eqb (fst kv) "description");
      [now rewrite orb_true_r in Hin | reflexivity].
  - rewrite String.eqb_sym. destruct (String.eqb (fst kv) "inputSchema");
      [now rewrite !orb_true_r in Hin | reflexivity].
Qed.

Example create_checkout :
  normalizeTool
    (JObj [("name", JStr "create_checkout");
           ("description", JStr "Create a checkout session");
           ("inputSchema",
            JObj [("properties", JObj [("product_id", JObj [("type", JStr "string")])]);
                  ("required", JArr [JStr "product_id"])])])
  = Ok (JObj [("name", JStr "create_checkout");
              ("description", JStr "Create a checkout session");
              ("inputSchema",
               JObj [("type", JStr "object");
                     ("properties",
                      JObj [("product_id", JObj [("type", JStr "string")])]);
                     ("required", JArr [JStr "product_id"])])]).
Proof. reflexivity. Qed.

(** Additional members are carried over behind the three normalizeTool sets;
    [__proto__] is not. *)
Example passthrough_members :
  normalizeTool
    (JObj [("annotations", JObj [("readOnlyHint", JBool true)]);
           ("__proto__", JObj [("x", JNum 1)]);
           ("name", JStr "ping")])
  = Ok (JObj [("name", JStr "ping"); ("description", JUndefined);
              ("inputSchema", JObj [("type", JStr "object"); ("properties", JObj [])]);
              ("annotations", JObj [("readOnlyHint", JBool true)])]).
Proof. reflexivity. Qed.

(** *** Rejection: C4 *)

Lemma rejected_true_iff tool :
  rejected tool = true <->
  (not_an_object tool = true
   \/ typeof (get tool "name") <> "string"
   \/ (is_undefined (get tool "inputSchema") = false
       /\ not_an_object (get tool "inputSchema") = true)).
Proof.
  unfold rejected. rewrite !orb_true_iff, andb_true_iff, negb_true_iff, negb_true_iff.
  rewrite String.eqb_neq. tauto.
Qed.

Lemma rejected_false_iff tool :
  rejected tool = false <->
  (not_an_object tool = false
   /\ typeof (get tool "name") = "string"
   /\ (is_undefined (get tool "inputSchema") = true
       \/ not_an_object (get tool "inputSchema") = false)).
Proof.
  unfold rejected. rewrite !orb_false_iff, andb_false_iff, negb_false_iff, negb_false_iff.
  rewrite String.eqb_eq. tauto.
Qed.

(** C4 (as amended): normalizeTool throws an [Error] exactly when its input
    is not an object, or has no string [name], or has an [inputSchema] that is
    neither [undefined] nor an object; it returns a descriptor exactly when the
    input is an object with a string [name] whose [inputSchema] is missing
    (or [undefined]) or an object. *)
Theorem normalizeTool_throws_iff (tool : value) :
  ((exists msg, normalizeTool tool = Throw (ErrorObj msg)) <->
   (not_an_object tool = true
    \/ typeof (get tool "name") <> "string"
    \/ (is_undefined (get tool "inputSchema") = false
        /\ not_an_object (get tool "inputSchema") = true)))
  /\ ((exists d, normalizeTool tool = Ok d) <->
      (not_an_object tool = false
       /\ typeof (get tool "name") = "string"
       /\ (is_undefined (get tool "inputSchema") = true
           \/ not_an_object (get tool "inputSchema") = false))).
Proof.
  rewrite <- rejected_true_iff, <- rejected_false_iff. split; split.
  - intros [msg H]. destruct (rejected tool) eqn:E; [reflexivity|].
    rewrite (normalizeTool_accepted_raw _ E) in H. discriminate.
  - apply normalizeTool_rejected.
  - intros [d H]. exact (normalizeTool_Ok_accepted _ _ H).
  - intros H. rewrite (normalizeTool_accepted_raw _ H). eauto.
Qed.

Lemma normalizeTool_throws_iff_witness :
  (exists msg, normalizeTool (JStr "ping") = Throw (ErrorObj msg))
  /\ (exists d, normalizeTool (JObj [("name", JStr "ping")]) = Ok d).
Proof.
  split.
  - exact (proj2 (proj1 (normalizeTool_throws_iff (JStr "ping")))
                 (or_introl eq_refl)).
  - exact (proj2 (proj2 (normalizeTool_throws_iff (JObj [("name", JStr "ping")])))
                 (conj eq_refl (conj eq_refl (or_introl eq_refl)))).
Defined.

(** C4, the claim as the specification words it, fails: an object with a
    string [name] is rejected when its [inputSchema] is [null]. *)
Lemma normalizeTool_rejects_named_object :
  let tool := JObj [("name", JStr "a"); ("inputSchema", JNull)] in
  wf tool = true
  /\ is_json tool = true
  /\ not_an_object tool = false
  /\ typeof (get tool "name") = "string"
  /\ normalizeTool tool
     = Throw (ErrorObj "Invalid tool 'a': inputSchema must be an object").
Proof. repeat split. Qed.

(** *** The descriptor's inputSchema *)

Lemma normalized_schema_object s :
  not_an_object s = false -> not_an_object (normalizeInputSchema s) = false.
Proof.
  intros H. unfold normalizeInputSchema.
  now destruct (schemaNeedsNormalization s).
Qed.

Lemma inputSchemaOf_object tool :
  rejected tool = false -> not_an_object (inputSchemaOf tool) = false.
Proof.
  intros H. apply rejected_false_iff in H as (_ & _ & H). unfold inputSchemaOf.
  destruct (is_undefined (get tool "inputSchema")) eqn:E; [reflexivity|].
  destruct H as [H|H]; [discriminate|]. now apply normalized_schema_object.
Qed.

Lemma In_define_own o k v x : In x (define_own o k v) -> x = (k, v) \/ In x o.
Proof.
  unfold define_own. destruct (has_own o k).
  - intros H. apply in_map_iff in H as (y & <- & Hy). unfold overwrite.
    destruct (String.eqb (fst y) k); auto.
  - apply In_insert_new.
Qed.

Lemma In_define_all l : forall base x,
  In x (define_all base l) -> In x base \/ In x l.
Proof.
  induction l as [|[k v] l IH]; intros base x H; [now left|].
  apply IH in H as [H|H]; [|right; now right].
  apply In_define_own in H as [->|H]; [right; now left | now left].
Qed.

Lemma wf_define_all base l :
  wf (JObj base) = true -> forallb (fun kv => wf (snd kv)) l = true ->
  wf (JObj (define_all base l)) = true.
Proof.
  simpl. rewrite !andb_true_iff, !forallb_forall. intros [Ho Hv] Hl. split.
  - now apply define_all_keeps_order.
  - intros x Hx. apply In_define_all in Hx as [Hx|Hx]; auto.
Qed.

Lemma wf_entries v : wf v = true -> forallb (fun kv => wf (snd kv)) (entries v) = true.
Proof.
  destruct v as [| | | | |items|o]; try reflexivity.
  - simpl. generalize 0%N. induction items as [|x l IH]; intros i H; [reflexivity|].
    simpl in *. apply andb_true_iff in H as [-> H]. now apply IH.
  - simpl. intros H. now apply andb_true_iff in H.
Qed.

Lemma normalizeInputSchema_wf s : wf s = true -> wf (normalizeInputSchema s) = true.
Proof.
  intros H. unfold normalizeInputSchema.
  destruct (schemaNeedsNormalization s); [|exact H].
  apply wf_define_all; [reflexivity | now apply wf_entries].
Qed.

Lemma inputSchemaOf_wf tool : wf tool = true -> wf (inputSchemaOf tool) = true.
Proof.
  intros H. unfold inputSchemaOf. destruct (is_undefined _); [reflexivity|].
  now apply normalizeInputSchema_wf, wf_get.
Qed.

Lemma descriptionOf_wf tool : wf tool = true -> wf (descriptionOf tool) = true.
Proof.
  intros H. unfold descriptionOf. destruct (String.eqb _ _); [|reflexivity].
  now apply wf_get.
Qed.

(** normalizeTool keeps its output well formed. *)
Lemma normalizeTool_wf tool d :
  wf tool = true -> normalizeTool tool = Ok d -> wf d = true.
Proof.
  intros Hwf H. assert (Hacc := normalizeTool_Ok_accepted _ _ H).
  rewrite (normalizeTool_accepted_raw _ Hacc) in H. injection H as <-.
  apply wf_define_all.
  - change (wf (get tool "name") && (wf (descriptionOf tool)
            && (wf (inputSchemaOf tool) && true)) = true).
    now rewrite wf_get, descriptionOf_wf, inputSchemaOf_wf.
  - apply forallb_forall. intros x Hx. apply In_filter in Hx as [Hx _].
    assert (He := wf_entries tool Hwf). rewrite forallb_forall in He. now apply He.
Qed.

(** *** The descriptor's description: C10 *)

(** C10: when the [description] of a tool is not a string, the descriptor
    normalizeTool returns has an own [description] property that holds
    [undefined]; the loop over the tool's entries does not copy the original
    value.  A descriptor is returned whenever the tool is one the function
    accepts. *)
Theorem normalizeTool_drops_description (tool v : value) :
  own_get (entries tool) "description" = Some v ->
  typeof v <> "string" ->
  (forall d, normalizeTool tool = Ok d ->
     own_get (entries d) "description" = Some JUndefined
     /\ get d "description" = JUndefined)
  /\ (not_an_object tool = false ->
      typeof (get tool "name") = "string" ->
      is_undefined (get tool "inputSchema") = true
      \/ not_an_object (get tool "inputSchema") = false ->
      exists d, normalizeTool tool = Ok d).
Proof.
  intros Hv Hty. split.
  - intros d H. destruct (normalizeTool_members _ _ H) as (_ & Hd & _).
    assert (E : descriptionOf tool = JUndefined).
    { unfold descriptionOf. destruct tool; try reflexivity.
      cbn [entries] in Hv. cbn [get]. rewrite Hv.
      apply String.eqb_neq in Hty. now rewrite Hty. }
    rewrite E in Hd. split; [exact Hd|].
    assert (Hacc := normalizeTool_Ok_accepted _ _ H).
    rewrite (normalizeTool_accepted_raw _ Hacc) in H. injection H as <-.
    cbn [entries] in Hd. cbn [get]. now rewrite Hd.
  - intros H1 H2 H3. rewrite (normalizeTool_accepted_raw tool); [eauto|].
    apply rejected_false_iff. auto.
Qed.

Lemma normalizeTool_drops_description_witness :
  normalizeTool (JObj [("name", JStr "ping"); ("description", JNum 5)])
  = Ok (JObj [("name", JStr "ping"); ("description", JUndefined);
              ("inputSchema", JObj [("type", JStr "object"); ("properties", JObj [])])])
  /\ own_get [("name", JStr "ping"); ("description", JUndefined);
              ("inputSchema", JObj [("type", JStr "object"); ("properties", JObj [])])]
             "description" = Some JUndefined.
Proof.
  split; [reflexivity|].
  refine (proj1 (proj1 (normalizeTool_drops_description
                          (JObj [("name", JStr "ping"); ("description", JNum 5)])
                          (JNum 5) eq_refl _) _ eq_refl)).
  discriminate.
Defined.

(** *** Idempotence of normalizeTool *)

Lemma descriptor_index_part o n d s : index_part (descriptor o n d s) = index_part o.
Proof.
  unfold descriptor, extras. rewrite !index_part_app, index_part_idem, index_part_named.
  simpl. now rewrite app_nil_r.
Qed.

Lemma descriptor_extras o n d s : extras (descriptor o n d s) = extras o.
Proof.
  unfold descriptor. unfold extras at 1.
  rewrite !named_part_app, named_part_index. unfold extras.
  rewrite named_part_named. simpl. apply filter_idem.
Qed.

Lemma descriptor_again o n d s n' d' s' :
  descriptor (descriptor o n d s) n' d' s' = descriptor o n' d' s'.
Proof.
  unfold descriptor at 1. rewrite descriptor_index_part, descriptor_extras.
  reflexivity.
Qed.

Lemma descriptor_ordered o n d s :
  ordered_keys (map fst o) = true ->
  ordered_keys (map fst (descriptor o n d s)) = true.
Proof.
  intros H. rewrite <- (descriptor_closed o n d s H).
  now apply define_all_keeps_order.
Qed.

Lemma inputSchemaOf_fixed tool :
  wf tool = true ->
  normalizeInputSchema (inputSchemaOf tool) = inputSchemaOf tool.
Proof.
  intros H. unfold inputSchemaOf. destruct (is_undefined _); [reflexivity|].
  now apply normalizeInputSchema_idempotent, wf_get.
Qed.

Lemma descriptionOf_fixed tool :
  (if String.eqb (typeof (descriptionOf tool)) "string"
   then descriptionOf tool else JUndefined) = descriptionOf tool.
Proof.
  unfold descriptionOf.
  destruct (String.eqb (typeof (get tool "description")) "string") eqn:E.
  - now rewrite E.
  - reflexivity.
Qed.

Lemma not_an_object_defined v : not_an_object v = false -> is_undefined v = false.
Proof. now destruct v. Qed.

Lemma get_own o k v : own_get o k = Some v -> get (JObj o) k = v.
Proof. simpl. now intros ->. Qed.

(** A descriptor normalizeTool returned is returned again as it is. *)
Lemma normalizeTool_idempotent tool d :
  wf tool = true -> normalizeTool tool = Ok d -> normalizeTool d = Ok d.
Proof.
  intros Hwf H.
  assert (Hacc := normalizeTool_Ok_accepted _ _ H).
  destruct (normalizeTool_members _ _ H) as (Hn & Hd & Hs).
  assert (Hobj := inputSchemaOf_object tool Hacc).
  assert (Hfix := inputSchemaOf_fixed tool Hwf).
  assert (Hname : typeof (get tool "name") = "string")
    by now apply rejected_false_iff in Hacc.
  destruct (accepted_object _ Hacc) as [o Eo].
  assert (Hord : ordered_keys (map fst o) = true) by (apply wf_ordered; now subst).
  assert (Ed : d = JObj (descriptor o (get tool "name") (descriptionOf tool)
                                    (inputSchemaOf tool))).
  { subst tool. rewrite (normalizeTool_accepted o Hord Hacc) in H. congruence. }
  remember (descriptor o (get tool "name") (descriptionOf tool) (inputSchemaOf tool))
    as o' eqn:Eo'.
  subst d. unfold entries in Hn, Hd, Hs.
  apply get_own in Hn, Hd, Hs.
  assert (Hacc' : rejected (JObj o') = false).
  { apply rejected_false_iff. rewrite Hn, Hs. auto. }
  assert (Hord' : ordered_keys (map fst o') = true)
    by (subst o'; now apply descriptor_ordered).
  rewrite (normalizeTool_accepted o' Hord' Hacc').
  unfold descriptionOf at 1. unfold inputSchemaOf at 1.
  rewrite Hn, Hd, Hs, descriptionOf_fixed, (not_an_object_defined _ Hobj), Hfix.
  rewrite Eo'. now rewrite descriptor_again.
Qed.

End Tool.

Section Tools.
Import Js SchemaNormalizer.

Lemma mapM_Ok {A B} (f : A -> result B) l ys :
  mapM f l = Ok ys <-> Forall2 (fun x y => f x = Ok y) l ys.
Proof.
  revert ys. induction l as [|x l IH]; intros ys; simpl.
  - split; [intros [= <-]; constructor | now inversion 1].
  - destruct (f x) as [y|e] eqn:Ex; simpl.
    + destruct (mapM f l) as [ys'|e] eqn:El; simpl.
      * split.
        -- intros [= <-]. constructor; [exact Ex | now apply IH].
        -- inversion 1 as [|? y' ? ys'' Hy Hys]; subst.
           apply IH in Hys. congruence.
      * split; [discriminate|].
        inversion 1 as [|? y' ? ys'' Hy Hys]; subst. apply IH in Hys. discriminate.
    + split; [discriminate|]. inversion 1; congruence.
Qed.

Lemma mapM_Throw {A B} (f : A -> result B) l e :
  mapM f l = Throw e -> exists x, In x l /\ f x = Throw e.
Proof.
  induction l as [|x l IH]; simpl; [discriminate|].
  destruct (f x) as [y|e'] eqn:Ex; simpl.
  - destruct (mapM f l) as [ys|e'']; simpl; [discriminate|].
    intros [= ->]. destruct (IH eq_refl) as (x' & Hin & Hx'). eauto.
  - intros [= ->]. eauto.
Qed.

Lemma mapM_fixed {A} (f : A -> result A) l :
  Forall (fun x => f x = Ok x) l -> mapM f l = Ok l.
Proof.
  induction 1 as [|x l Hx _ IH]; simpl; [reflexivity|]. now rewrite Hx, IH.
Qed.

Lemma normalizeTools_array l : normalizeTools (JArr l)
  = (normalized <- mapM normalizeTool l ;; Ok (JArr normalized)).
Proof. reflexivity. Qed.

(** C7: on an array, normalizeTools returns the array of the descriptors
    normalizeTool returns for the elements, in the same order and number,
    when every element is accepted, and otherwise throws what normalizeTool
    throws for an element; on anything that is not an array it returns the
    empty array and does not throw. *)
Theorem normalizeTools_elementwise :
  (forall l out,
     normalizeTools (JArr l) = Ok out <->
     exists ds, out = JArr ds /\ Forall2 (fun t d => normalizeTool t = Ok d) l ds)
  /\ (forall l ds,
        normalizeTools (JArr l) = Ok (JArr ds) ->
        length ds = length l
        /\ forall i t, l !! i = Some t ->
             exists d, ds !! i = Some d /\ normalizeTool t = Ok d)
  /\ (forall l e,
        normalizeTools (JArr l) = Throw e ->
        exists t, In t l /\ normalizeTool t = Throw e)
  /\ (forall v, isArray v = false -> normalizeTools v = Ok (JArr [])).
Proof.
  assert (H1 : forall l out,
             normalizeTools (JArr l) = Ok out <->
             exists ds, out = JArr ds
                        /\ Forall2 (fun t d => normalizeTool t = Ok d) l ds).
  { intros l out. rewrite normalizeTools_array.
    destruct (mapM normalizeTool l) as [ds|e] eqn:E; simpl.
    - apply mapM_Ok in E. split.
      + intros [= <-]. eauto.
      + intros (ds' & -> & H). apply mapM_Ok in H, E. congruence.
    - split; [discriminate|]. intros (ds' & -> & H). apply mapM_Ok in H. congruence. }
  split; [exact H1|]. split; [|split].
  - intros l ds H. apply H1 in H as (ds' & [= <-] & HF). split.
    + symmetry. exact (Forall2_length _ _ _ HF).
    + intros i t Hi. exact (Forall2_lookup_l _ _ _ _ _ HF Hi).
  - intros l e. rewrite normalizeTools_array.
    destruct (mapM normalizeTool l) as [ds|e'] eqn:E; simpl; [discriminate|].
    intros [= ->]. now apply mapM_Throw.
  - intros v Hv. unfold normalizeTools. now rewrite Hv.
Qed.

Lemma normalizeTools_elementwise_witness :
  (length [JObj [("name", JStr "a"); ("description", JUndefined);
                 ("inputSchema", JObj [("type", JStr "object"); ("properties", JObj [])])];
           JObj [("name", JStr "b"); ("description", JStr "second");
                 ("inputSchema", JObj [("type", JStr "object"); ("properties", JObj [])])]]
   = length [JObj [("name", JStr "a")];
             JObj [("name", JStr "b"); ("description", JStr "second");
                   ("inputSchema", JObj [("properties", JObj [])])]])
  /\ normalizeTools (JStr "tools") = Ok (JArr []).
Proof.
  split.
  - exact (proj1 (proj1 (proj2 normalizeTools_elementwise)
                   [JObj [("name", JStr "a")];
                    JObj [("name", JStr "b"); ("description", JStr "second");
                          ("inputSchema", JObj [("properties", JObj [])])]]
                   _ eq_refl)).
  - exact (proj2 (proj2 (proj2 normalizeTools_elementwise)) (JStr "tools") eq_refl).
Defined.

End Tools.

Section Response.
Import Js SchemaNormalizer.

Lemma own_get_overwrite_same o k v :
  has_own o k = true -> own_get (map (overwrite k v) o) k = Some v.
Proof.
  unfold has_own. induction o as [|[k0 v0] o IH]; simpl; [discriminate|].
  unfold overwrite at 1. simpl. rewrite (String.eqb_sym k0 k).
  destruct (String.eqb k k0) eqn:E; simpl.
  - now rewrite String.eqb_refl.
  - rewrite E. exact IH.
Qed.

Lemma overwrite_twice o k v v' :
  map (overwrite k v') (map (overwrite k v) o) = map (overwrite k v') o.
Proof.
  rewrite map_map. apply map_ext. intros [k0 v0]. unfold overwrite. simpl.
  destruct (String.eqb k0 k) eqn:E; simpl; [now rewrite String.eqb_refl | now rewrite E].
Qed.

Lemma define_own_present o k v x :
  own_get o k = Some x -> define_own o k v = map (overwrite k v) o.
Proof. intros H. unfold define_own, has_own. now rewrite H. Qed.

Lemma get_array_object v l : get v "tools" = JArr l -> exists o, v = JObj o.
Proof. destruct v; try discriminate. eauto. Qed.

Lemma get_Some o k v : get (JObj o) k = v -> v <> JUndefined -> own_get o k = Some v.
Proof. simpl. destruct (own_get o k); congruence. Qed.

Lemma not_rewritten response :
  rewritten response = false -> normalizeToolsListResponse response = Ok response.
Proof.
  unfold rewritten, normalizeToolsListResponse.
  destruct (not_an_object response); [reflexivity|].
  destruct (is_undefined (get response "error")); [|reflexivity].
  destruct (not_an_object (get response "result")); [reflexivity|].
  destruct (isArray (get (get response "result") "tools")); [discriminate|reflexivity].
Qed.

(** What a response that passes the guards is rewritten to. *)
Lemma rewrite_closed o ro ts :
  ordered_keys (map fst o) = true -> ordered_keys (map fst ro) = true ->
  own_get o "result" = Some (JObj ro) -> own_get ro "tools" = Some (JArr ts) ->
  is_undefined (get (JObj o) "error") = true ->
  normalizeToolsListResponse (JObj o)
  = (ds <- mapM normalizeTool ts ;;
     Ok (JObj (map (overwrite "result"
                      (JObj (map (overwrite "tools" (JArr ds)) ro))) o))).
Proof.
  intros Ho Hro Hres Htools He. unfold normalizeToolsListResponse.
  change (not_an_object (JObj o)) with false. cbn iota.
  rewrite He, (get_own _ _ _ Hres), (get_own _ _ _ Htools).
  cbn [negb isArray]. change (not_an_object (JObj ro)) with false. cbn iota.
  rewrite normalizeTools_array.
  destruct (mapM normalizeTool ts) as [ds|e]; [|reflexivity]. cbn [bind].
  rewrite !spread_copy by assumption.
  now rewrite (define_own_present ro "tools" _ _ Htools),
              (define_own_present o "result" _ _ Hres).
Qed.

(** The shape of a response that is rewritten. *)
Lemma rewritten_shape response :
  wf response = true -> rewritten response = true ->
  exists o ro ts,
    response = JObj o
    /\ own_get o "result" = Some (JObj ro)
    /\ own_get ro "tools" = Some (JArr ts)
    /\ is_undefined (get (JObj o) "error") = true
    /\ ordered_keys (map fst o) = true
    /\ ordered_keys (map fst ro) = true
    /\ Forall (fun t => wf t = true) ts.
Proof.
  intros Hwf H. unfold rewritten in H.
  apply andb_true_iff in H as [H Ht]. apply andb_true_iff in H as [H Hr].
  apply andb_true_iff in H as [Ho He].
  apply negb_true_iff in Ho, Hr.
  destruct (get (get response "result") "tools") as [| | | | |ts|] eqn:Etools;
    try discriminate.
  destruct (get_array_object _ _ Etools) as [ro Eres].
  assert (Eresp : exists o, response = JObj o).
  { destruct response; try discriminate. eauto. }
  destruct Eresp as [o ->].
  assert (Hres : own_get o "result" = Some (JObj ro)) by now apply get_Some.
  assert (Htools : own_get ro "tools" = Some (JArr ts)).
  { rewrite Eres in Etools. now apply get_Some. }
  assert (Hwr : wf (JObj ro) = true) by exact (wf_prop _ _ _ Hwf Hres).
  assert (Hwt : wf (JArr ts) = true) by exact (wf_prop _ _ _ Hwr Htools).
  exists o, ro, ts. repeat split; auto using wf_ordered.
  simpl in Hwt. rewrite forallb_forall in Hwt. now apply List.Forall_forall.
Qed.

(** C6: normalizeToolsListResponse returns its argument when that is not an
    object, when it has an [error] member holding a value, when its [result]
    is not an object, and when [result.tools] is not an array.  Whatever it
    returns for a well-formed response has the keys of the response in the
    same order and the same value under every key but [result], and its
    [result] has the keys of the response's [result] in the same order and
    the same value under every key but [tools], which holds what
    normalizeTools returns when the response passed the four guards. *)
Theorem normalizeToolsListResponse_passthrough (response : value) :
  (not_an_object response = true ->
   normalizeToolsListResponse response = Ok response)
  /\ (forall e, own_get (entries response) "error" = Some e -> e <> JUndefined ->
      normalizeToolsListResponse response = Ok response)
  /\ (not_an_object (get response "result") = true ->
      normalizeToolsListResponse response = Ok response)
  /\ (isArray (get (get response "result") "tools") = false ->
      normalizeToolsListResponse response = Ok response)
  /\ (forall response',
        wf response = true ->
        normalizeToolsListResponse response = Ok response' ->
        map fst (entries response') = map fst (entries response)
        /\ (forall k, k <> "result" ->
              own_get (entries response') k = own_get (entries response) k)
        /\ map fst (entries (get response' "result"))
           = map fst (entries (get response "result"))
        /\ (forall k, k <> "tools" ->
              own_get (entries (get response' "result")) k
              = own_get (entries (get response "result")) k)
        /\ (rewritten response = true ->
            normalizeTools (get (get response "result") "tools")
            = Ok (get (get response' "result") "tools"))).
Proof.
  repeat apply conj.
  - intros H. apply not_rewritten. unfold rewritten. now rewrite H.
  - intros e He Hdef. apply not_rewritten. unfold rewritten.
    destruct response; try reflexivity.
    cbn [entries] in He. rewrite (get_own _ _ _ He).
    destruct e; try reflexivity. congruence.
  - intros H. apply not_rewritten. unfold rewritten. rewrite H.
    now rewrite andb_false_r.
  - intros H. apply not_rewritten. unfold rewritten. rewrite H.
    now rewrite andb_false_r.
  - intros response' Hwf H. destruct (rewritten response) eqn:E.
    + destruct (rewritten_shape _ Hwf E) as (o & ro & ts & -> & Hres & Htools & He & Ho & Hro & _).
      rewrite (rewrite_closed o ro ts Ho Hro Hres Htools He) in H.
      destruct (mapM normalizeTool ts) as [ds|e] eqn:Eds; [|discriminate].
      injection H as <-. cbn [entries].
      rewrite (get_own _ _ _ Hres).
      rewrite (get_own _ "result" (JObj (map (overwrite "tools" (JArr ds)) ro)))
        by (apply own_get_overwrite_same; unfold has_own; now rewrite Hres).
      cbn [entries]. rewrite !map_fst_overwrite. repeat split.
      * intros k Hk. apply own_get_overwrite_other. now apply String.eqb_neq.
      * intros k Hk. apply own_get_overwrite_other. now apply String.eqb_neq.
      * rewrite (get_own _ _ _ Htools).
        rewrite (get_own _ "tools" (JArr ds))
          by (apply own_get_overwrite_same; unfold has_own; now rewrite Htools).
        now rewrite normalizeTools_array, Eds.
    + rewrite (not_rewritten _ E) in H. injection H as <-. repeat split.
      discriminate.
Qed.

Lemma normalizeToolsListResponse_passthrough_witness :
  normalizeToolsListResponse
    (JObj [("jsonrpc", JStr "2.0"); ("id", JNum 7);
           ("error", JObj [("code", JNum 1); ("message", JStr "boom")]);
           ("result", JObj [("tools", JArr [JObj [("name", JStr "ping")]])])])
  = Ok (JObj [("jsonrpc", JStr "2.0"); ("id", JNum 7);
              ("error", JObj [("code", JNum 1); ("message", JStr "boom")]);
              ("result", JObj [("tools", JArr [JObj [("name", JStr "ping")]])])])
  /\ own_get
       (entries
          (JObj [("jsonrpc", JStr "2.0"); ("id", JNum 7);
                 ("result",
                  JObj [("tools",
                         JArr [JObj [("name", JStr "ping"); ("description", JUndefined);
                                     ("inputSchema",
                                      JObj [("type", JStr "object");
                                            ("properties", JObj [])])]]);
                        ("nextCursor", JStr "c")]);
                 ("meta", JStr "kept")]))
       "meta"
     = Some (JStr "kept").
Proof.
  split.
  - refine (proj1 (proj2
      (normalizeToolsListResponse_passthrough
         (JObj [("jsonrpc", JStr "2.0"); ("id", JNum 7);
                ("error", JObj [("code", JNum 1); ("message", JStr "boom")]);
                ("result", JObj [("tools", JArr [JObj [("name", JStr "ping")]])])])))
      (JObj [("code", JNum 1); ("message", JStr "boom")]) eq_refl _).
    discriminate.
  - refine (proj1 (proj2 (proj2 (proj2 (proj2 (proj2
      (normalizeToolsListResponse_passthrough
         (JObj [("jsonrpc", JStr "2.0"); ("id", JNum 7);
                ("result", JObj [("tools", JArr [JObj [("name", JStr "ping")]]);
                                 ("nextCursor", JStr "c")]);
                ("meta", JStr "kept")]))))) _ eq_refl eq_refl)) "meta" _).
    discriminate.
Defined.

(** *** Idempotence: C3 *)

Lemma descriptors_fixed ts ds :
  Forall (fun t => wf t = true) ts ->
  Forall2 (fun t d => normalizeTool t = Ok d) ts ds ->
  Forall (fun d => normalizeTool d = Ok d) ds.
Proof.
  intros Hwf H. induction H as [|t d ts ds Htd _ IH]; constructor.
  - apply (normalizeTool_idempotent t d); [now inversion Hwf | exact Htd].
  - apply IH. now inversion Hwf.
Qed.

Lemma normalizeToolsListResponse_fixed response response' :
  wf response = true ->
  normalizeToolsListResponse response = Ok response' ->
  normalizeToolsListResponse response' = Ok response'.
Proof.
  intros Hwf H. destruct (rewritten response) eqn:E.
  - destruct (rewritten_shape _ Hwf E)
      as (o & ro & ts & -> & Hres & Htools & He & Ho & Hro & Hts).
    rewrite (rewrite_closed o ro ts Ho Hro Hres Htools He) in H.
    destruct (mapM normalizeTool ts) as [ds|e] eqn:Eds; [|discriminate].
    injection H as <-. apply mapM_Ok in Eds.
    rewrite (rewrite_closed _ (map (overwrite "tools" (JArr ds)) ro) ds).
    + rewrite (mapM_fixed _ _ (descriptors_fixed _ _ Hts Eds)). cbn [bind].
      now rewrite !overwrite_twice.
    + now rewrite map_fst_overwrite.
    + now rewrite map_fst_overwrite.
    + apply own_get_overwrite_same. unfold has_own. now rewrite Hres.
    + apply own_get_overwrite_same. unfold has_own. now rewrite Htools.
    + cbn [get] in *. now rewrite own_get_overwrite_other.
  - rewrite (not_rewritten _ E) in H. injection H as <-. now apply not_rewritten.
Qed.

(** C3: normalizeInputSchema applied to its own result returns that result,
    and so does normalizeToolsListResponse: a second application changes
    nothing, and when the first one throws there is no second one. *)
Theorem normalization_idempotent (s response : value) :
  wf s = true -> wf response = true ->
  normalizeInputSchema (normalizeInputSchema s) = normalizeInputSchema s
  /\ (once <- normalizeToolsListResponse response ;; normalizeToolsListResponse once)
     = normalizeToolsListResponse response.
Proof.
  intros Hs Hr. split; [now apply normalizeInputSchema_idempotent|].
  destruct (normalizeToolsListResponse response) as [once|e] eqn:E; [|reflexivity].
  cbn [bind]. exact (normalizeToolsListResponse_fixed _ _ Hr E).
Qed.

Lemma normalization_idempotent_witness :
  normalizeInputSchema
    (normalizeInputSchema (JObj [("properties", JObj []); ("type", JNull)]))
  = normalizeInputSchema (JObj [("properties", JObj []); ("type", JNull)])
  /\ (once <- normalizeToolsListResponse
               (JObj [("jsonrpc", JStr "2.0"); ("id", JNum 1);
                      ("result",
                       JObj [("tools",
                              JArr [JObj [("7", JNull); ("name", JStr "ping");
                                          ("inputSchema",
                                           JObj [("properties", JObj [])]);
                                          ("annotations", JObj [])]])])]) ;;
      normalizeToolsListResponse once)
     = normalizeToolsListResponse
         (JObj [("jsonrpc", JStr "2.0"); ("id", JNum 1);
                ("result",
                 JObj [("tools",
                        JArr [JObj [("7", JNull); ("name", JStr "ping");
                                    ("inputSchema", JObj [("properties", JObj [])]);
                                    ("annotations", JObj [])]])])]).
Proof.
  exact (normalization_idempotent
           (JObj [("properties", JObj []); ("type", JNull)])
           (JObj [("jsonrpc", JStr "2.0"); ("id", JNum 1);
                  ("result",
                   JObj [("tools",
                          JArr [JObj [("7", JNull); ("name", JStr "ping");
                                      ("inputSchema", JObj [("properties", JObj [])]);
                                      ("annotations", JObj [])]])])])
           eq_refl eq_refl).
Defined.

End Response.

(** ** The /message handler *)

Section Router.
Import Js SchemaNormalizer Proxy.

Variable ToString : value -> result string.
Variable connections : gmap string ClientConnection.

(** A message that carries a method name is an object. *)
Lemma method_message_object message m :
  get message "method" = JStr m ->
  negb (truthy message) || negb (String.eqb (typeof message) "object") = false.
Proof. destruct message; try discriminate. reflexivity. Qed.

(** A trace that is one reply with an error status. *)
Ltac one_reply := eexists _, _; split; [reflexivity | lia].

Lemma dispatch_unhandled client connection message name :
  equals_string (get message "method") "tools/list" = false ->
  equals_string (get message "method") "tools/call" = false ->
  template ToString (get message "method") = Ok name ->
  dispatch ToString client connection message
  = ([HttpReply 501 (rejection (-32601) ("Method not implemented: " +:+ name)
                               (or_null (get message "id")))], None).
Proof. intros H1 H2 Hn. unfold dispatch. now rewrite H1, H2, Hn. Qed.

(** C8 (as amended): a message whose method is neither [tools/list] nor
    [tools/call], and which the template literal of the reply can spell out
    ([name] is the method itself when that is a string), is answered by one
    synchronous error reply and nothing else: no call to the upstream client
    and no write to the stream.  When the message is addressed to a live
    session and its method is truthy (present and not the empty string),
    that reply is the 501 "Method not implemented" error, code -32601. *)
Theorem unhandled_method_not_implemented (req : Request) (name : string) :
  equals_string (get (body req) "method") "tools/list" = false ->
  equals_string (get (body req) "method") "tools/call" = false ->
  template ToString (get (body req) "method") = Ok name ->
  (exists status reply,
     post_message ToString connections req = [HttpReply status reply]
     /\ (400 <= status)%Z)
  /\ existsb is_upstream_call (post_message ToString connections req) = false
  /\ existsb is_sse_write (post_message ToString connections req) = false
  /\ (forall client connection,
        clientId req = Some client -> client <> "" ->
        connections !! client = Some connection ->
        truthy (get (body req) "method") = true ->
        post_message ToString connections req
        = [HttpReply 501 (rejection (-32601) ("Method not implemented: " +:+ name)
                                    (or_null (get (body req) "id")))]).
Proof.
  intros H1 H2 Hn.
  assert (Hone : exists status reply,
             post_message ToString connections req = [HttpReply status reply]
             /\ (400 <= status)%Z); [|split; [exact Hone|split; [|split]]].
  - unfold post_message.
    destruct (clientId req) as [client|]; [|one_reply].
    destruct (String.eqb client ""); [one_reply|].
    destruct (connections !! client) as [connection|]; [|one_reply].
    cbv zeta. destruct (negb (truthy (body req)) || _); [one_reply|].
    destruct (negb (truthy (get (body req) "method"))); [one_reply|].
    rewrite (dispatch_unhandled _ _ _ name H1 H2 Hn). one_reply.
  - destruct Hone as (status & reply & -> & _). reflexivity.
  - destruct Hone as (status & reply & -> & _). reflexivity.
  - intros client connection Hc Hne Hconn Hm. unfold post_message.
    rewrite Hc. apply String.eqb_neq in Hne. rewrite Hne, Hconn.
    cbv zeta. rewrite Hm. cbn [negb].
    assert (Hobj : negb (truthy (body req))
                   || negb (String.eqb (typeof (body req)) "object") = false).
    { destruct (body req); try discriminate. reflexivity. }
    now rewrite Hobj, (dispatch_unhandled _ _ _ name H1 H2 Hn).
Qed.

(** C9 (as amended): for [tools/list] and [tools/call] on a resolved session
    the first thing the handler does is the upstream call; nothing has been
    sent to the inbound caller by then.  When the call is rejected, or
    normalizing a tools/list result throws, the handler writes a JSON-RPC
    error with code -32603 and the message "Internal error: " followed by the
    error's message ("Unknown error" for a rejection that is not an [Error])
    to the session's stream and then answers the inbound call with status
    500 and the same message.  The 202 acknowledgment is sent only after a
    successful call, behind the write of its result. *)
Theorem upstream_failure_delivery (req : Request) (client : string)
    (connection : ClientConnection) :
  clientId req = Some client -> client <> "" ->
  connections !! client = Some connection ->
  let message := body req in
  let failure error :=
    [SseWrite client
       (JObj [("jsonrpc", JStr "2.0");
              ("id", get message "id");
              ("error", JObj [("code", JNum (-32603));
                              ("message",
                               JStr ("Internal error: " +:+ errorMessageOf error))])]);
     HttpReply 500 (JObj [("status", JStr "error");
                          ("message", JStr (errorMessageOf error))])] in
  let listed result :=
    normalizeToolsListResponse
      (JObj [("jsonrpc", JStr "2.0");
             ("id", get message "id");
             ("result", JObj [("tools", get (JObj result) "tools")])]) in
  (get message "method" = JStr "tools/list" ->
     (forall error,
        listTools (mcpClient connection) = Throw error ->
        post_message ToString connections req
        = UpstreamListTools client :: failure error)
     /\ (forall result error,
          listTools (mcpClient connection) = Ok result ->
          listed result = Throw error ->
          post_message ToString connections req
          = UpstreamListTools client :: failure error)
     /\ (forall result response,
          listTools (mcpClient connection) = Ok result ->
          listed result = Ok response ->
          post_message ToString connections req
          = [UpstreamListTools client; SseWrite client response;
             HttpReply 202 accepted]))
  /\ (get message "method" = JStr "tools/call" ->
      (forall error,
         callTool (mcpClient connection) (get message "params") = Throw error ->
         post_message ToString connections req
         = UpstreamCallTool client (get message "params") :: failure error)
      /\ (forall result,
           callTool (mcpClient connection) (get message "params") = Ok result ->
           post_message ToString connections req
           = [UpstreamCallTool client (get message "params");
              SseWrite client (JObj [("jsonrpc", JStr "2.0");
                                     ("id", get message "id");
                                     ("result", result)]);
              HttpReply 202 accepted])).
Proof.
  intros Hc Hne Hconn message failure listed.
  apply String.eqb_neq in Hne.
  assert (Hpost : forall m, get message "method" = JStr m -> m <> "" ->
            post_message ToString connections req
            = let (events, thrown) := dispatch ToString client connection message in
              match thrown with
              | None => events
              | Some error => events ++ on_error client message error
              end).
  { intros m Hm Hm'. unfold post_message. rewrite Hc, Hne, Hconn. cbv zeta.
    fold message. rewrite (method_message_object _ _ Hm), Hm. simpl truthy.
    apply String.eqb_neq in Hm'. now rewrite Hm'. }
  split; intros Hm; rewrite (Hpost _ Hm) by discriminate; unfold dispatch; rewrite Hm;
    simpl equals_string; cbv iota.
  - repeat split.
    + intros error ->. reflexivity.
    + intros result error -> H. unfold listed in H. now rewrite H.
    + intros result response -> H. unfold listed in H. now rewrite H.
  - split.
    + intros error ->. reflexivity.
    + intros result ->. reflexivity.
Qed.

End Router.

Section RouterExamples.
Import Js SchemaNormalizer Proxy.

Lemma unhandled_method_not_implemented_witness :
  post_message (fun _ => Ok "")
    {[ "c1" := {| mcpClient := {| listTools := Ok []; callTool := fun _ => Ok JNull |} |} ]}
    {| clientId := Some "c1";
       body := JObj [("jsonrpc", JStr "2.0"); ("id", JNum 3); ("method", JStr "foo/bar")] |}
  = [HttpReply 501 (rejection (-32601) "Method not implemented: foo/bar" (JNum 3))].
Proof.
  refine (proj2 (proj2 (proj2 (unhandled_method_not_implemented (fun _ => Ok "")
            {[ "c1" := {| mcpClient := {| listTools := Ok [];
                                          callTool := fun _ => Ok JNull |} |} ]}
            {| clientId := Some "c1";
               body := JObj [("jsonrpc", JStr "2.0"); ("id", JNum 3);
                             ("method", JStr "foo/bar")] |}
            "foo/bar" eq_refl eq_refl eq_refl)))
          "c1" _ eq_refl _ eq_refl eq_refl).
  discriminate.
Defined.

Lemma upstream_failure_delivery_witness :
  post_message (fun _ => Ok "")
    {[ "c1" := {| mcpClient := {| listTools := Throw (ErrorObj "upstream down");
                                  callTool := fun _ => Ok JNull |} |} ]}
    {| clientId := Some "c1";
       body := JObj [("jsonrpc", JStr "2.0"); ("id", JNum 3); ("method", JStr "tools/list")] |}
  = [UpstreamListTools "c1";
     SseWrite "c1"
       (JObj [("jsonrpc", JStr "2.0"); ("id", JNum 3);
              ("error", JObj [("code", JNum (-32603));
                              ("message", JStr "Internal error: upstream down")])]);
     HttpReply 500 (JObj [("status", JStr "error"); ("message", JStr "upstream down")])].
Proof.
  refine (proj1 (proj1 (upstream_failure_delivery (fun _ => Ok "")
            {[ "c1" := {| mcpClient := {| listTools := Throw (ErrorObj "upstream down");
                                          callTool := fun _ => Ok JNull |} |} ]}
            {| clientId := Some "c1";
               body := JObj [("jsonrpc", JStr "2.0"); ("id", JNum 3);
                             ("method", JStr "tools/list")] |}
            "c1" _ eq_refl _ eq_refl) eq_refl) (ErrorObj "upstream down") eq_refl).
  discriminate.
Defined.

(** C8, the claim as the specification words it, fails: the empty method
    name is neither [tools/list] nor [tools/call], and the message is rejected
    as one without a method, with the code of a validation error. *)
Lemma empty_method_is_missing_method :
  let trace :=
    post_message (fun _ => Ok "")
      {[ "c1" := {| mcpClient := {| listTools := Ok []; callTool := fun _ => Ok JNull |} |} ]}
      {| clientId := Some "c1";
         body := JObj [("jsonrpc", JStr "2.0"); ("id", JNum 3); ("method", JStr "")] |} in
  trace = [HttpReply 400 (rejection (-32600) "Missing method field" (JNum 3))]
  /\ trace <> [HttpReply 501 (rejection (-32601) "Method not implemented: " (JNum 3))].
Proof. cbv zeta. split; [reflexivity | discriminate]. Qed.

(** C9, the claim as the specification words it, fails: when the upstream
    call is rejected the inbound caller is answered with status 500, and no
    acknowledgment precedes the upstream call. *)
Lemma upstream_failure_is_synchronous :
  let trace :=
    post_message (fun _ => Ok "")
      {[ "c1" := {| mcpClient := {| listTools := Throw (ErrorObj "upstream down");
                                    callTool := fun _ => Ok JNull |} |} ]}
      {| clientId := Some "c1";
         body := JObj [("jsonrpc", JStr "2.0"); ("id", JNum 3);
                       ("method", JStr "tools/list")] |} in
  trace
  = [UpstreamListTools "c1";
     SseWrite "c1"
       (JObj [("jsonrpc", JStr "2.0"); ("id", JNum 3);
              ("error", JObj [("code", JNum (-32603));
                              ("message", JStr "Internal error: upstream down")])]);
     HttpReply 500 (JObj [("status", JStr "error"); ("message", JStr "upstream down")])]
  /\ hd_error trace = Some (UpstreamListTools "c1")
  /\ In (HttpReply 500 (JObj [("status", JStr "error");
                              ("message", JStr "upstream down")])) trace
  /\ ~ In (HttpReply 202 accepted) trace.
Proof.
  cbv zeta. split; [reflexivity|]. split; [reflexivity|]. split.
  - right. right. now left.
  - intros [H|[H|[H|[]]]]; discriminate.
Qed.

End RouterExamples.

(** * Further properties of the schema normalizer *)

Section NormalizerMembers.
Import Js SchemaNormalizer.

(** A filter that keeps every property named [k] keeps what [k] reads. *)
Lemma own_get_filter (p : string * value -> bool) o k :
  (forall kv, fst kv = k -> p kv = true) ->
  own_get (List.filter p o) k = own_get o k.
Proof.
  intros Hp. induction o as [|[k' v'] o IH]; simpl; [reflexivity|].
  destruct (String.eqb_spec k k') as [->|Hne].
  - rewrite (Hp (k', v') eq_refl). simpl. now rewrite String.eqb_refl.
  - destruct (p (k', v')); simpl; [|exact IH].
    apply String.eqb_neq in Hne. now rewrite Hne.
Qed.

Lemma own_get_named_part o k :
  array_index k = None -> own_get (named_part o) k = own_get o k.
Proof.
  intros Hk. apply own_get_filter. intros kv <-. unfold is_named, is_index.
  now rewrite Hk.
Qed.

Lemma own_get_index_part_index o k n :
  array_index k = Some n -> own_get (index_part o) k = own_get o k.
Proof.
  intros Hk. apply own_get_filter. intros kv <-. unfold is_index. now rewrite Hk.
Qed.

Lemma index_part_not_type o :
  List.filter (fun kv => negb (String.eqb (fst kv) "type")) (index_part o)
  = index_part o.
Proof.
  apply filter_all. intros kv Hin. apply In_filter in Hin as [_ Hin].
  unfold is_index in Hin. destruct (String.eqb_spec (fst kv) "type") as [E|]; [|reflexivity].
  now rewrite E in Hin.
Qed.

(** What the rebuilt schema reads under a key. *)
Lemma own_get_spread_onto_type o k :
  ordered_keys (map fst o) = true ->
  own_get (spread [("type", JStr "object")] (JObj o)) k
  = if String.eqb k "type"
    then Some (match own_get o "type" with Some v => v | None => JStr "object" end)
    else own_get o k.
Proof.
  intros Hord.
  assert (Hs : own_get o k = match own_get (index_part o) k with
                             | Some v => Some v
                             | None => own_get (named_part o) k
                             end).
  { rewrite <- own_get_app. now rewrite <- (ordered_split o Hord). }
  rewrite (spread_onto_type o Hord), own_get_app.
  destruct (String.eqb_spec k "type") as [->|Hne].
  - now rewrite own_get_index_part.
  - rewrite Hs. destruct (own_get (index_part o) k); [reflexivity|]. simpl.
    apply String.eqb_neq in Hne. rewrite Hne.
    apply own_get_filter. intros kv ->. now rewrite Hne.
Qed.

(** X1: normalizeInputSchema only ever adds: every member of a well-formed
    schema object is a member of the result with the same value, [type]
    included; no key but [type] is new; and without their [type] members the
    schema and the result are the same object. *)
Theorem normalizeInputSchema_keeps_members (o : props) :
  wf (JObj o) = true ->
  (forall k v, own_get o k = Some v ->
     own_get (entries (normalizeInputSchema (JObj o))) k = Some v)
  /\ (forall k, k <> "type" ->
        own_get (entries (normalizeInputSchema (JObj o))) k = own_get o k)
  /\ List.filter (fun kv => negb (String.eqb (fst kv) "type"))
       (entries (normalizeInputSchema (JObj o)))
     = List.filter (fun kv => negb (String.eqb (fst kv) "type")) o.
Proof.
  intros Hwf. apply wf_ordered in Hwf.
  destruct (schemaNeedsNormalization (JObj o)) eqn:E;
    [|rewrite (not_normalized _ E); repeat split; auto].
  unfold normalizeInputSchema. rewrite E. cbn [negb entries]. repeat split.
  - intros k v Hk. rewrite (own_get_spread_onto_type o k Hwf).
    destruct (String.eqb_spec k "type") as [->|]; [now rewrite Hk | exact Hk].
  - intros k Hk. rewrite (own_get_spread_onto_type o k Hwf).
    apply String.eqb_neq in Hk. now rewrite Hk.
  - assert (Hs : List.filter (fun kv => negb (String.eqb (fst kv) "type")) o
                 = index_part o
                   ++ List.filter (fun kv => negb (String.eqb (fst kv) "type"))
                        (named_part o)).
    { rewrite <- index_part_not_type, <- List.filter_app.
      now rewrite <- (ordered_split o Hwf). }
    rewrite Hs, (spread_onto_type o Hwf), List.filter_app. simpl.
    now rewrite filter_idem, index_part_not_type.
Qed.

Lemma normalizeInputSchema_keeps_members_witness :
  own_get
    (entries (normalizeInputSchema
                (JObj [("3", JNull); ("properties", JObj []); ("type", JBool false);
                       ("required", JArr [JStr "x"])])))
    "required"
  = Some (JArr [JStr "x"]).
Proof.
  exact (proj1 (normalizeInputSchema_keeps_members
                  [("3", JNull); ("properties", JObj []); ("type", JBool false);
                   ("required", JArr [JStr "x"])] eq_refl)
               "required" (JArr [JStr "x"]) eq_refl).
Defined.

Lemma still_needs_normalization (s : value) :
  wf s = true ->
  (schemaNeedsNormalization (normalizeInputSchema s) = true <->
   schemaNeedsNormalization s = true /\ has_own (entries s) "type" = true).
Proof.
  intros Hwf. destruct (schemaNeedsNormalization s) eqn:E.
  - destruct (needs_normalization_object s E) as [o ->].
    assert (Hord := wf_ordered o Hwf).
    unfold normalizeInputSchema. rewrite E. cbn [negb entries].
    unfold schemaNeedsNormalization in *. cbn [not_an_object typeof is_null orb negb] in *.
    change (String.eqb "object" "object") with true in *. cbn [negb orb] in *.
    cbn [get] in *. rewrite !(own_get_spread_onto_type o _ Hord). cbn [String.eqb Ascii.eqb Bool.eqb].
    change (String.eqb "properties" "type") with false.
    change (String.eqb "type" "type") with true. cbv iota.
    apply andb_true_iff in E as [Et Ep]. rewrite Ep, andb_true_r.
    unfold has_own. destruct (own_get o "type") as [t|].
    + rewrite Et. tauto.
    + simpl. split; [discriminate | intros [_ H]; discriminate].
  - rewrite (not_normalized s E), E. split; [discriminate | intros [H _]; discriminate].
Qed.

(** X2: one pass repairs every schema it can repair: the result of
    normalizeInputSchema on a well-formed value still needs normalization
    exactly when the value needed it and has a [type] member of its own,
    which is then falsy and is what the result carries. *)
Theorem normalizeInputSchema_repairs (s : value) :
  wf s = true ->
  (schemaNeedsNormalization (normalizeInputSchema s) = true <->
   schemaNeedsNormalization s = true /\ has_own (entries s) "type" = true).
Proof. exact (still_needs_normalization s). Qed.

Lemma normalizeInputSchema_repairs_witness :
  schemaNeedsNormalization
    (normalizeInputSchema (JObj [("properties", JObj []); ("type", JNull)])) = true.
Proof.
  exact (proj2 (normalizeInputSchema_repairs
                  (JObj [("properties", JObj []); ("type", JNull)]) eq_refl)
               (conj eq_refl eq_refl)).
Defined.

End NormalizerMembers.

Section DescriptorMembers.
Import Js SchemaNormalizer.

Lemma descriptor_object tool d : normalizeTool tool = Ok d -> exists o, d = JObj o.
Proof.
  intros H. assert (Hacc := normalizeTool_Ok_accepted _ _ H).
  rewrite (normalizeTool_accepted_raw _ Hacc) in H. injection H as <-. eauto.
Qed.

(** X3: a descriptor keeps the tool's [name], which is a string, keeps its
    [description] when that is a string, and carries the normalized form of
    the [inputSchema] the tool has. *)
Theorem normalizeTool_keeps_name_description (tool d : value) :
  normalizeTool tool = Ok d ->
  get d "name" = get tool "name"
  /\ typeof (get d "name") = "string"
  /\ (typeof (get tool "description") = "string" ->
      get d "description" = get tool "description")
  /\ (is_undefined (get tool "inputSchema") = false ->
      get d "inputSchema" = normalizeInputSchema (get tool "inputSchema")).
Proof.
  intros H. destruct (normalizeTool_members _ _ H) as (Hn & Hd & Hs).
  assert (Hacc := normalizeTool_Ok_accepted _ _ H).
  destruct (descriptor_object _ _ H) as [o ->]. cbn [entries] in *.
  rewrite (get_own _ _ _ Hn), (get_own _ _ _ Hd), (get_own _ _ _ Hs).
  repeat split.
  - now apply rejected_false_iff in Hacc.
  - intros Hty. unfold descriptionOf. apply String.eqb_eq in Hty. now rewrite Hty.
  - intros Hu. unfold inputSchemaOf. now rewrite Hu.
Qed.

Lemma normalizeTool_keeps_name_description_witness :
  get (JObj [("name", JStr "ping"); ("description", JStr "Ping the server");
             ("inputSchema", JObj [])]) "description"
  = JStr "Ping the server".
Proof.
  exact (proj1 (proj2 (proj2
           (normalizeTool_keeps_name_description
              (JObj [("inputSchema", JObj []); ("description", JStr "Ping the server");
                     ("name", JStr "ping")])
              (JObj [("name", JStr "ping"); ("description", JStr "Ping the server");
                     ("inputSchema", JObj [])])
              eq_refl))) eq_refl).
Defined.

Lemma own_get_extras o k :
  array_index k = None -> passthrough_key k = true -> k <> "__proto__" ->
  own_get (extras o) k = own_get o k.
Proof.
  intros Hi Hp Hne. unfold extras. rewrite own_get_filter.
  - now apply own_get_named_part.
  - intros kv <-. unfold copied. rewrite Hp. apply String.eqb_neq in Hne.
    now rewrite Hne.
Qed.

Lemma own_get_extras_proto o : own_get (extras o) "__proto__" = None.
Proof.
  apply own_get_None. intros kv Hin. apply In_filter in Hin as [_ Hin].
  unfold copied in Hin. apply andb_true_iff in Hin as [_ Hin].
  apply negb_true_iff in Hin. now rewrite String.eqb_sym.
Qed.

Lemma passthrough_not_reserved k n d s :
  passthrough_key k = true ->
  own_get [("name", n); ("description", d); ("inputSchema", s)] k = None.
Proof.
  unfold passthrough_key. simpl. intros H.
  destruct (String.eqb k "name"); [discriminate|].
  destruct (String.eqb k "description"); [discriminate|].
  now destruct (String.eqb k "inputSchema").
Qed.

(** X4: the additional members of a well-formed tool pass through: the
    descriptor's keys are the tool's array-index keys, then [name],
    [description], [inputSchema], then the tool's other named keys in their
    order, without [__proto__]; each key other than the three and [__proto__]
    reads the same in the descriptor as in the tool; and the descriptor has
    no [__proto__] member. *)
Theorem normalizeTool_passthrough (o : props) (d : value) :
  wf (JObj o) = true ->
  normalizeTool (JObj o) = Ok d ->
  map fst (entries d)
  = map fst (index_part o) ++ ["name"; "description"; "inputSchema"]
    ++ map fst (extras o)
  /\ (forall k, passthrough_key k = true -> k <> "__proto__" ->
        own_get (entries d) k = own_get o k)
  /\ own_get (entries d) "__proto__" = None.
Proof.
  intros Hwf H. assert (Hord := wf_ordered o Hwf).
  assert (Hacc := normalizeTool_Ok_accepted _ _ H).
  rewrite (normalizeTool_accepted o Hord Hacc) in H. injection H as <-.
  cbn [entries]. unfold descriptor. repeat split.
  - now rewrite !map_app.
  - intros k Hp Hne. rewrite !own_get_app.
    destruct (array_index k) as [n|] eqn:Hk.
    + rewrite (own_get_index_part_index o k n Hk).
      destruct (own_get o k) eqn:E; [reflexivity|].
      rewrite (passthrough_not_reserved k _ _ _ Hp).
      apply own_get_None. intros kv Hin. apply In_filter in Hin as [Hin _].
      apply In_filter in Hin as [Hin _]. rewrite own_get_None in E. now apply E.
    + rewrite (own_get_index_part o k Hk), (passthrough_not_reserved k _ _ _ Hp).
      now apply own_get_extras.
  - rewrite !own_get_app, own_get_index_part by reflexivity. simpl.
    apply own_get_extras_proto.
Qed.

Lemma normalizeTool_passthrough_witness :
  own_get
    (entries (JObj [("0", JStr "zero"); ("name", JStr "ping");
                    ("description", JUndefined);
                    ("inputSchema",
                     JObj [("type", JStr "object"); ("properties", JObj [])]);
                    ("annotations", JObj [("readOnlyHint", JBool true)])]))
    "annotations"
  = own_get [("0", JStr "zero");
             ("annotations", JObj [("readOnlyHint", JBool true)]);
             ("__proto__", JNull); ("name", JStr "ping")] "annotations".
Proof.
  exact (proj1 (proj2
           (normalizeTool_passthrough
              [("0", JStr "zero");
               ("annotations", JObj [("readOnlyHint", JBool true)]);
               ("__proto__", JNull); ("name", JStr "ping")]
              _ eq_refl eq_refl))
           "annotations" eq_refl ltac:(discriminate)).
Defined.

(** A normalized schema that has [properties] has a [type] member. *)
Lemma normalized_schema_has_type (s : value) :
  wf s = true ->
  is_undefined (get (normalizeInputSchema s) "properties") = false ->
  has_own (entries (normalizeInputSchema s)) "type" = true.
Proof.
  intros Hws Hp. destruct (schemaNeedsNormalization s) eqn:E.
  - destruct (needs_normalization_object s E) as [o Eo]. rewrite Eo in *.
    unfold normalizeInputSchema. rewrite E. cbn [negb entries]. unfold has_own.
    now rewrite (own_get_spread_onto_type o "type" (wf_ordered o Hws)).
  - rewrite (not_normalized s E) in *.
    unfold schemaNeedsNormalization in E. destruct s as [| | | | | |o]; try discriminate.
    cbn [not_an_object typeof is_null orb negb] in E.
    change (String.eqb "object" "object") with true in E. cbn [negb orb] in E.
    rewrite Hp, andb_true_r in E. apply negb_false_iff in E.
    cbn [get entries] in *. unfold has_own.
    destruct (own_get o "type"); [reflexivity | discriminate].
Qed.

Lemma descriptor_schema_has_type (tool d : value) :
  wf tool = true ->
  normalizeTool tool = Ok d ->
  is_undefined (get (get d "inputSchema") "properties") = false ->
  has_own (entries (get d "inputSchema")) "type" = true.
Proof.
  intros Hwf H. destruct (normalizeTool_members _ _ H) as (_ & _ & Hs).
  destruct (descriptor_object _ _ H) as [o' ->]. cbn [entries] in Hs.
  rewrite (get_own _ _ _ Hs). unfold inputSchemaOf.
  destruct (is_undefined (get tool "inputSchema")) eqn:Eu; [reflexivity|].
  apply normalized_schema_has_type. now apply wf_get.
Qed.

(** X5: the promise of the proxy: in a descriptor made from a well-formed
    tool, an [inputSchema] that has [properties] has a [type] member, and it
    needs no further normalization unless the tool's own [inputSchema]
    carried a [type] member already (a falsy one). *)
Theorem normalizeTool_schema_typed (tool d : value) :
  wf tool = true ->
  normalizeTool tool = Ok d ->
  (is_undefined (get (get d "inputSchema") "properties") = false ->
   has_own (entries (get d "inputSchema")) "type" = true)
  /\ (schemaNeedsNormalization (get d "inputSchema") = true ->
      has_own (entries (get tool "inputSchema")) "type" = true).
Proof.
  intros Hwf H. split; [exact (descriptor_schema_has_type tool d Hwf H)|].
  destruct (normalizeTool_members _ _ H) as (_ & _ & Hs).
  destruct (descriptor_object _ _ H) as [o' ->]. cbn [entries] in Hs.
  rewrite (get_own _ _ _ Hs). unfold inputSchemaOf.
  destruct (is_undefined (get tool "inputSchema")) eqn:Eu; [discriminate|].
  intros Hn. apply (still_needs_normalization (get tool "inputSchema")); [|exact Hn].
  now apply wf_get.
Qed.

Lemma normalizeTool_schema_typed_witness :
  has_own
    (entries (get (JObj [("name", JStr "ping"); ("description", JUndefined);
                         ("inputSchema",
                          JObj [("type", JStr "object");
                                ("properties", JObj [("x", JObj [])])])])
                  "inputSchema"))
    "type" = true.
Proof.
  exact (proj1 (normalizeTool_schema_typed
                  (JObj [("name", JStr "ping");
                         ("inputSchema", JObj [("properties", JObj [("x", JObj [])])])])
                  _ eq_refl eq_refl) eq_refl).
Defined.

(** C5: the [inputSchema] of every descriptor normalizeTool returns is a
    well-formed object.  It is an object ([typeof] is ["object"] and it is
    not [null], the guard the code applies).  For a well-formed tool it is a
    well-formed value, and it is not of the malformed shape the proxy exists
    to repair: when it has [properties] it has a [type] member, and that
    member is ["object"] when the tool's schema had [properties] and no
    [type].  A tool with no [inputSchema] property gets exactly
    [{ type: "object", properties: {} }]. *)
Theorem normalizeTool_inputSchema_object (tool d : value) :
  normalizeTool tool = Ok d ->
  not_an_object (get d "inputSchema") = false
  /\ (wf tool = true -> wf (get d "inputSchema") = true)
  /\ (wf tool = true ->
      is_undefined (get (get d "inputSchema") "properties") = false ->
      has_own (entries (get d "inputSchema")) "type" = true)
  /\ (wf tool = true ->
      forall o,
        get tool "inputSchema" = JObj o ->
        own_get o "type" = None ->
        is_undefined (get (JObj o) "properties") = false ->
        get (get d "inputSchema") "type" = JStr "object"
        /\ get (get d "inputSchema") "properties" = get (JObj o) "properties")
  /\ (own_get (entries tool) "inputSchema" = None ->
      get d "inputSchema" = JObj [("type", JStr "object"); ("properties", JObj [])]).
Proof.
  intros H. assert (Hacc := normalizeTool_Ok_accepted _ _ H).
  destruct (normalizeTool_members _ _ H) as (_ & _ & Hs).
  split; [|split; [|split; [exact (fun Hwf => descriptor_schema_has_type tool d Hwf H)|split]]].
  - destruct (descriptor_object _ _ H) as [o' ->]. cbn [entries] in Hs.
    rewrite (get_own _ _ _ Hs). now apply inputSchemaOf_object.
  - destruct (descriptor_object _ _ H) as [o' ->]. cbn [entries] in Hs.
    rewrite (get_own _ _ _ Hs). apply inputSchemaOf_wf.
  - intros Hwf o Ho Ht Hp.
    destruct (descriptor_object _ _ H) as [o' ->]. cbn [entries] in Hs.
    rewrite (get_own _ _ _ Hs). unfold inputSchemaOf. rewrite Ho. cbn [is_undefined].
    assert (Hws : wf (JObj o) = true) by (rewrite <- Ho; now apply wf_get).
    assert (E : schemaNeedsNormalization (JObj o) = true).
    { unfold schemaNeedsNormalization. change (not_an_object (JObj o)) with false.
      cbv iota. rewrite Hp. cbn [get]. now rewrite Ht. }
    unfold normalizeInputSchema. rewrite E. cbn [negb get].
    rewrite !(own_get_spread_onto_type o _ (wf_ordered o Hws)), Ht.
    change (String.eqb "type" "type") with true.
    change (String.eqb "properties" "type") with false. cbv iota.
    split; reflexivity.
  - destruct (accepted_object _ Hacc) as [o ->].
    destruct (descriptor_object _ _ H) as [o' ->]. cbn [entries] in Hs |- *.
    rewrite (get_own _ _ _ Hs). intros Hnone. unfold inputSchemaOf. cbn [get].
    now rewrite Hnone.
Qed.

Lemma normalizeTool_inputSchema_object_witness :
  get (JObj [("name", JStr "ping"); ("description", JUndefined);
             ("inputSchema", JObj [("type", JStr "object"); ("properties", JObj [])])])
      "inputSchema"
  = JObj [("type", JStr "object"); ("properties", JObj [])]
  /\ get (get (JObj [("name", JStr "pong"); ("description", JUndefined);
                     ("inputSchema",
                      JObj [("type", JStr "object");
                            ("properties", JObj [("x", JObj [])]);
                            ("required", JArr [JStr "x"])])])
               "inputSchema") "type"
     = JStr "object".
Proof.
  split.
  - exact (proj2 (proj2 (proj2 (proj2
             (normalizeTool_inputSchema_object (JObj [("name", JStr "ping")]) _
                eq_refl)))) eq_refl).
  - exact (proj1 (proj1 (proj2 (proj2 (proj2
             (normalizeTool_inputSchema_object
                (JObj [("name", JStr "pong");
                       ("inputSchema",
                        JObj [("properties", JObj [("x", JObj [])]);
                              ("required", JArr [JStr "x"])])])
                _ eq_refl)))) eq_refl
             [("properties", JObj [("x", JObj [])]); ("required", JArr [JStr "x"])]
             eq_refl eq_refl eq_refl)).
Defined.

(** X6: normalizing a descriptor again returns it as it is: for a
    well-formed tool, normalizeTool after normalizeTool is normalizeTool. *)
Theorem normalizeTool_twice (tool : value) :
  wf tool = true ->
  (d <- normalizeTool tool ;; normalizeTool d) = normalizeTool tool.
Proof.
  intros Hwf. destruct (normalizeTool tool) as [d|e] eqn:E; [|reflexivity].
  cbn [bind]. exact (normalizeTool_idempotent tool d Hwf E).
Qed.

Lemma normalizeTool_twice_witness :
  (d <- normalizeTool
          (JObj [("2", JNull); ("x-vendor", JStr "v");
                 ("inputSchema", JObj [("properties", JObj []); ("type", JStr "")]);
                 ("name", JStr "ping")]) ;;
   normalizeTool d)
  = normalizeTool
      (JObj [("2", JNull); ("x-vendor", JStr "v");
             ("inputSchema", JObj [("properties", JObj []); ("type", JStr "")]);
             ("name", JStr "ping")]).
Proof.
  exact (normalizeTool_twice
           (JObj [("2", JNull); ("x-vendor", JStr "v");
                  ("inputSchema", JObj [("properties", JObj []); ("type", JStr "")]);
                  ("name", JStr "ping")]) eq_refl).
Defined.

(** X7: which error normalizeTool throws.  The input's [typeof] is reported
    when it is not an object; a missing or non-string [name] is reported
    before the [inputSchema] is looked at; and a bad [inputSchema] is reported
    with the tool's name. *)
Theorem normalizeTool_error_messages (tool : value) :
  (not_an_object tool = true ->
   normalizeTool tool
   = Throw (ErrorObj ("Invalid tool: expected object, got " +:+ typeof tool)))
  /\ (not_an_object tool = false -> typeof (get tool "name") <> "string" ->
      normalizeTool tool
      = Throw (ErrorObj "Invalid tool: missing or invalid 'name' field"))
  /\ (forall name,
        not_an_object tool = false -> get tool "name" = JStr name ->
        is_undefined (get tool "inputSchema") = false ->
        not_an_object (get tool "inputSchema") = true ->
        normalizeTool tool
        = Throw (ErrorObj ("Invalid tool '" +:+ name
                           +:+ "': inputSchema must be an object"))).
Proof.
  unfold normalizeTool. repeat split.
  - now intros ->.
  - intros -> Hn. apply String.eqb_neq in Hn. now rewrite Hn.
  - intros name -> Hn Hu Ho. now rewrite Hn, Hu, Ho.
Qed.

Lemma normalizeTool_error_messages_witness :
  normalizeTool (JObj [("inputSchema", JStr "none"); ("description", JStr "d")])
  = Throw (ErrorObj "Invalid tool: missing or invalid 'name' field")
  /\ normalizeTool (JObj [("name", JStr "ping"); ("inputSchema", JArr []);
                          ("title", JNull)])
     = Ok (JObj [("name", JStr "ping"); ("description", JUndefined);
                 ("inputSchema", JArr []); ("title", JNull)])
  /\ normalizeTool (JObj [("name", JStr "ping"); ("inputSchema", JBool false)])
     = Throw (ErrorObj "Invalid tool 'ping': inputSchema must be an object").
Proof.
  split; [|split].
  - refine (proj1 (proj2 (normalizeTool_error_messages
              (JObj [("inputSchema", JStr "none"); ("description", JStr "d")])))
              eq_refl _).
    discriminate.
  - reflexivity.
  - exact (proj2 (proj2 (normalizeTool_error_messages
             (JObj [("name", JStr "ping"); ("inputSchema", JBool false)])))
             "ping" eq_refl eq_refl eq_refl eq_refl).
Defined.

End DescriptorMembers.

Section ToolLists.
Import Js SchemaNormalizer.

Lemma mapM_first_error {A B} (f : A -> result B) l e :
  mapM f l = Throw e <->
  exists l1 x l2,
    l = l1 ++ x :: l2
    /\ Forall (fun y => exists b, f y = Ok b) l1
    /\ f x = Throw e.
Proof.
  split.
  - induction l as [|x l IH]; simpl; [discriminate|].
    destruct (f x) as [b|e'] eqn:Ex; simpl.
    + destruct (mapM f l) as [bs|e'']; simpl; [discriminate|].
      intros [= ->]. destruct (IH eq_refl) as (l1 & y & l2 & -> & Hl1 & Hy).
      exists (x :: l1), y, l2. repeat split; auto. constructor; eauto.
    + intros [= ->]. exists [], x, l. repeat split; auto.
  - intros (l1 & x & l2 & -> & Hl1 & Hx).
    induction Hl1 as [|y l1 [b Hy] _ IH]; simpl.
    + now rewrite Hx.
    + now rewrite Hy, IH.
Qed.

(** X8: normalizeTools throws exactly on an array that holds a tool
    normalizeTool rejects, and what it throws is the error of the first such
    tool; the tools behind it are not looked at. *)
Theorem normalizeTools_first_error (tools : value) (e : exn) :
  normalizeTools tools = Throw e <->
  exists l1 tool l2,
    tools = JArr (l1 ++ tool :: l2)
    /\ Forall (fun t => exists d, normalizeTool t = Ok d) l1
    /\ normalizeTool tool = Throw e.
Proof.
  split.
  - destruct tools as [| | | | |l|]; try discriminate.
    rewrite normalizeTools_array.
    destruct (mapM normalizeTool l) as [ds|e'] eqn:E; [discriminate|].
    intros [= ->]. apply mapM_first_error in E as (l1 & x & l2 & -> & H1 & Hx).
    eauto 7.
  - intros (l1 & tool & l2 & -> & H1 & Hx). rewrite normalizeTools_array.
    assert (E : mapM normalizeTool (l1 ++ tool :: l2) = Throw e)
      by (apply mapM_first_error; eauto 7).
    now rewrite E.
Qed.

Lemma normalizeTools_first_error_witness :
  normalizeTools (JArr [JObj [("name", JStr "a")]; JNum 4; JNull])
  = Throw (ErrorObj "Invalid tool: expected object, got number").
Proof.
  refine (proj2 (normalizeTools_first_error _ _) _).
  exists [JObj [("name", JStr "a")]], (JNum 4), [JNull].
  split; [reflexivity|]. split; [|reflexivity].
  constructor; [|constructor]. eexists. reflexivity.
Defined.

(** X9: normalizeTools applied to its own result returns it: for a
    well-formed argument, normalizeTools after normalizeTools is
    normalizeTools. *)
Theorem normalizeTools_twice (tools : value) :
  wf tools = true ->
  (ds <- normalizeTools tools ;; normalizeTools ds) = normalizeTools tools.
Proof.
  intros Hwf. destruct tools as [| | | | |l|]; try reflexivity.
  rewrite normalizeTools_array.
  destruct (mapM normalizeTool l) as [ds|e] eqn:E; [|reflexivity].
  cbn [bind]. rewrite normalizeTools_array. apply mapM_Ok in E.
  assert (Hl : Forall (fun t => wf t = true) l).
  { simpl in Hwf. rewrite forallb_forall in Hwf. now apply List.Forall_forall. }
  now rewrite (mapM_fixed _ _ (descriptors_fixed _ _ Hl E)).
Qed.

Lemma normalizeTools_twice_witness :
  (ds <- normalizeTools
           (JArr [JObj [("name", JStr "a"); ("inputSchema", JObj [("properties", JNull)])];
                  JObj [("9", JNull); ("name", JStr "b")]]) ;;
   normalizeTools ds)
  = normalizeTools
      (JArr [JObj [("name", JStr "a"); ("inputSchema", JObj [("properties", JNull)])];
             JObj [("9", JNull); ("name", JStr "b")]]).
Proof.
  exact (normalizeTools_twice
           (JArr [JObj [("name", JStr "a");
                        ("inputSchema", JObj [("properties", JNull)])];
                  JObj [("9", JNull); ("name", JStr "b")]]) eq_refl).
Defined.

(** X10: normalizeToolsListResponse throws only for a response that passes
    its four guards, and then exactly what normalizeTools throws for
    [result.tools]; an error response, a response without a result object and
    a result without a [tools] array never make it throw, whatever else they
    hold. *)
Theorem normalizeToolsListResponse_throws (response : value) (e : exn) :
  normalizeToolsListResponse response = Throw e <->
  rewritten response = true
  /\ normalizeTools (get (get response "result") "tools") = Throw e.
Proof.
  destruct (rewritten response) eqn:E.
  - unfold rewritten in E.
    apply andb_true_iff in E as [E Ht]. apply andb_true_iff in E as [E Hr].
    apply andb_true_iff in E as [Ho He]. apply negb_true_iff in Ho, Hr.
    unfold normalizeToolsListResponse. rewrite Ho, He, Hr, Ht. cbn [negb].
    destruct (normalizeTools (get (get response "result") "tools")) as [ds|e'];
      cbn [bind].
    + split; [discriminate | intros [_ H]; discriminate].
    + split; [intros [= ->]; auto | intros [_ [= ->]]; reflexivity].
  - rewrite (not_rewritten _ E). split; [discriminate | intros [H _]; discriminate].
Qed.

Lemma normalizeToolsListResponse_throws_witness :
  normalizeToolsListResponse
    (JObj [("result", JObj [("tools", JArr [JObj [("name", JNum 1)]])])])
  = Throw (ErrorObj "Invalid tool: missing or invalid 'name' field").
Proof.
  exact (proj2 (normalizeToolsListResponse_throws
                  (JObj [("result", JObj [("tools", JArr [JObj [("name", JNum 1)]])])])
                  (ErrorObj "Invalid tool: missing or invalid 'name' field"))
               (conj eq_refl eq_refl)).
Defined.

End ToolLists.

(** * Further properties of the /message handler *)

Section RouterTraces.
Import Js SchemaNormalizer Proxy Trace.

Variable ToString : value -> result string.
Variable connections : gmap string ClientConnection.

Lemma equals_string_true x s : equals_string x s = true <-> x = JStr s.
Proof.
  destruct x; simpl; try (split; [discriminate | intros [=]]).
  rewrite String.eqb_eq. split; [now intros -> | now intros [= ->]].
Qed.

Lemma equals_string_false x s : equals_string x s = false <-> x <> JStr s.
Proof.
  rewrite <- equals_string_true. destruct (equals_string x s); split; congruence.
Qed.

Lemma dispatch_shape client connection message :
  (exists call, call_of client message call
     /\ ((exists m, dispatch ToString client connection message
                    = ([call; SseWrite client m; HttpReply 202 accepted], None))
         \/ (exists e, dispatch ToString client connection message
                       = ([call], Some e))))
  \/ (no_call message
      /\ ((exists b, dispatch ToString client connection message
                     = ([HttpReply 501 b], None))
          \/ (exists e, dispatch ToString client connection message
                        = ([], Some e)))).
Proof.
  unfold dispatch.
  destruct (equals_string (get message "method") "tools/list") eqn:El.
  { apply equals_string_true in El. left. exists (UpstreamListTools client).
    split; [left; auto|].
    destruct (listTools (mcpClient connection)) as [result|e]; [|right; eauto].
    destruct (normalizeToolsListResponse _) as [m|e]; [left|right]; eauto. }
  destruct (equals_string (get message "method") "tools/call") eqn:Ec.
  { apply equals_string_true in Ec. left.
    exists (UpstreamCallTool client (get message "params")).
    split; [right; auto|].
    destruct (callTool _ _) as [result|e]; [left|right]; eauto. }
  apply equals_string_false in El, Ec. right. split; [split; assumption|].
  destruct (template ToString (get message "method")) as [name|e]; [left|right]; eauto.
Qed.

(** Every trace of the handler has one of three shapes. *)
Lemma post_message_shape (req : Request) :
  (exists s b,
     post_message ToString connections req = [HttpReply s b]
     /\ (s = 400 \/ s = 404 \/ s = 501)%Z
     /\ (forall c connection,
           clientId req = Some c -> c <> "" -> connections !! c = Some connection ->
           no_call (body req)))
  \/ (exists c connection call,
        clientId req = Some c /\ c <> "" /\ connections !! c = Some connection
        /\ call_of c (body req) call
        /\ ((exists m, post_message ToString connections req
                       = [call; SseWrite c m; HttpReply 202 accepted])
            \/ (exists e, post_message ToString connections req
                          = call :: on_error c (body req) e)))
  \/ (exists c connection e,
        clientId req = Some c /\ c <> "" /\ connections !! c = Some connection
        /\ no_call (body req)
        /\ post_message ToString connections req = on_error c (body req) e).
Proof.
  unfold post_message.
  destruct (clientId req) as [c|] eqn:Ec.
  2: { left. eexists _, _. split; [reflexivity|]. split; [auto|]. discriminate. }
  destruct (String.eqb_spec c "") as [->|Hne].
  { left. eexists _, _. split; [reflexivity|]. split; [auto|].
    intros c' conn [= <-]. congruence. }
  destruct (connections !! c) as [connection|] eqn:Econn.
  2: { left. eexists _, _. split; [reflexivity|]. split; [auto|].
       intros c' conn [= <-]. congruence. }
  cbv zeta.
  destruct (negb (truthy (body req)) || negb (String.eqb (typeof (body req)) "object"))
    eqn:Eobj.
  { left. eexists _, _. split; [reflexivity|]. split; [auto|].
    intros _ _ _ _ _. split; destruct (body req); try discriminate; cbn; discriminate. }
  destruct (negb (truthy (get (body req) "method"))) eqn:Em.
  { left. eexists _, _. split; [reflexivity|]. split; [auto|].
    intros _ _ _ _ _. split; intros E; rewrite E in Em; discriminate. }
  destruct (dispatch_shape c connection (body req))
    as [(call & Hcall & [[m E]|[e E]]) | (Hno & [[b E]|[e E]])]; rewrite E.
  - right. left. exists c, connection, call. eauto 10.
  - right. left. exists c, connection, call. repeat split; auto. right. eauto.
  - left. eexists _, _. split; [reflexivity|]. split; [auto|]. intros; exact Hno.
  - right. right. exists c, connection, e. repeat split; auto; apply Hno.
Qed.

Lemma call_of_is_call c message call :
  call_of c message call -> is_upstream_call call = true /\ is_http_reply call = false
                            /\ is_sse_write call = false.
Proof. intros [[_ ->]|[_ ->]]; repeat split. Qed.

(** X11: the handler answers every request exactly once, and the answer is
    the last thing it does: nothing is written to a stream and no upstream
    call is made after the reply.  The status is 202, 400, 404, 500 or 501. *)
Theorem one_reply_at_the_end (req : Request) :
  exists events status reply,
    post_message ToString connections req = events ++ [HttpReply status reply]
    /\ existsb is_http_reply events = false
    /\ In status [202; 400; 404; 500; 501]%Z.
Proof.
  destruct (post_message_shape req)
    as [(s & b & -> & Hs & _)
       | [(c & conn & call & _ & _ & _ & Hcall & [[m ->]|[e ->]])
         | (c & conn & e & _ & _ & _ & _ & ->)]].
  - exists [], s, b. repeat split. simpl. destruct Hs as [-> | [-> | ->]]; auto 10.
  - destruct (call_of_is_call _ _ _ Hcall) as (_ & Hr & _).
    exists [call; SseWrite c m], 202%Z, accepted. simpl. rewrite Hr. auto 10.
  - destruct (call_of_is_call _ _ _ Hcall) as (_ & Hr & _).
    eexists [call; _], 500%Z, _. simpl. rewrite Hr. split; [reflexivity|]. auto 10.
  - eexists [_], 500%Z, _. simpl. split; [reflexivity|]. auto 10.
Qed.

(** X12: the handler calls the upstream client exactly when the request
    names a registered connection and its method is [tools/list] or
    [tools/call]; it makes at most one upstream call, before anything else. *)
Theorem upstream_call_only_when_asked (req : Request) :
  (existsb is_upstream_call (post_message ToString connections req) = true <->
   exists c connection,
     clientId req = Some c /\ c <> "" /\ connections !! c = Some connection
     /\ (get (body req) "method" = JStr "tools/list"
         \/ get (body req) "method" = JStr "tools/call"))
  /\ existsb is_upstream_call (tl (post_message ToString connections req)) = false.
Proof.
  destruct (post_message_shape req)
    as [(s & b & -> & Hs & Hno)
       | [(c & conn & call & Hc & Hne & Hconn & Hcall & Htrace)
         | (c & conn & e & Hc & Hne & Hconn & Hno & ->)]].
  - split; [|reflexivity]. split; [discriminate|].
    intros (c & conn & Hc & Hne & Hconn & Hm).
    destruct (Hno c conn Hc Hne Hconn) as [H1 H2]. destruct Hm; contradiction.
  - destruct (call_of_is_call _ _ _ Hcall) as (Hu & _ & _).
    assert (Hm : get (body req) "method" = JStr "tools/list"
                 \/ get (body req) "method" = JStr "tools/call")
      by (destruct Hcall as [[H _]|[H _]]; auto).
    destruct Htrace as [[m ->]|[e ->]]; simpl; rewrite Hu; (split; [|reflexivity]);
      (split; [intros _; eauto 10 | reflexivity]).
  - split; [|reflexivity]. split; [discriminate|].
    intros (c' & conn' & Hc' & _ & _ & Hm).
    destruct Hno as [H1 H2]. destruct Hm; contradiction.
Qed.

(** X13: sessions are isolated on the way out: whatever the handler writes
    to a stream, it writes to the stream of the connection the request
    names, which is registered; and it writes at most once per request. *)
Theorem writes_only_to_the_requester (req : Request) :
  (length (List.filter is_sse_write (post_message ToString connections req)) <= 1)%nat
  /\ (forall c message,
        In (SseWrite c message) (post_message ToString connections req) ->
        clientId req = Some c /\ c <> ""
        /\ exists connection, connections !! c = Some connection).
Proof.
  destruct (post_message_shape req)
    as [(s & b & -> & _ & _)
       | [(c & conn & call & Hc & Hne & Hconn & Hcall & Htrace)
         | (c & conn & e & Hc & Hne & Hconn & _ & ->)]].
  - split; [simpl; lia|]. intros c m [H|[]]. discriminate.
  - destruct (call_of_is_call _ _ _ Hcall) as (_ & _ & Hw).
    assert (Hcw : forall c' m', call <> SseWrite c' m')
      by (intros c' m' ->; discriminate).
    destruct Htrace as [[m ->]|[e ->]]; simpl; rewrite Hw; (split; [simpl; lia|]).
    + intros c' m' [H|[[= <- _]|[H|[]]]]; [now apply Hcw in H | eauto | discriminate].
    + intros c' m' [H|[[= <- _]|[H|[]]]]; [now apply Hcw in H | eauto | discriminate].
  - split; [simpl; lia|]. intros c' m' [[= <- _]|[H|[]]]; [eauto | discriminate].
Qed.

(** X14: sessions are isolated on the way in: the handler looks at no
    connection but the one the request names, so two registries that agree
    on that identifier give the same trace. *)
Theorem other_sessions_do_not_matter (registry : gmap string ClientConnection)
    (req : Request) :
  (forall c, clientId req = Some c -> registry !! c = connections !! c) ->
  post_message ToString registry req = post_message ToString connections req.
Proof.
  intros H. unfold post_message. destruct (clientId req) as [c|]; [|reflexivity].
  now rewrite (H c eq_refl).
Qed.

(** X15: what a reply's status tells the caller: 202 is sent only behind an
    upstream call and the write of its result to the caller's stream; 500 is
    sent only behind the write of the -32603 error that carries the request's
    [id]; and with any other status nothing else has happened. *)
Theorem reply_status_meaning (req : Request) (status : Z) (reply : value) :
  In (HttpReply status reply) (post_message ToString connections req) ->
  (status = 202%Z ->
   exists c call message,
     call_of c (body req) call
     /\ post_message ToString connections req
        = [call; SseWrite c message; HttpReply 202 accepted])
  /\ (status = 500%Z ->
      exists c error events,
        clientId req = Some c
        /\ (events = [] \/ exists call, call_of c (body req) call /\ events = [call])
        /\ post_message ToString connections req
           = events
             ++ [SseWrite c
                   (JObj [("jsonrpc", JStr "2.0");
                          ("id", get (body req) "id");
                          ("error",
                           JObj [("code", JNum (-32603));
                                 ("message",
                                  JStr ("Internal error: " +:+ errorMessageOf error))])]);
                 HttpReply 500 (JObj [("status", JStr "error");
                                      ("message", JStr (errorMessageOf error))])])
  /\ (status <> 202%Z -> status <> 500%Z ->
      post_message ToString connections req = [HttpReply status reply]).
Proof.
  destruct (post_message_shape req)
    as [(s & b & -> & Hs & _)
       | [(c & conn & call & Hc & Hne & Hconn & Hcall & Htrace)
         | (c & conn & e & Hc & Hne & Hconn & _ & ->)]].
  - intros [[= -> ->]|[]]. split; [|split]; [intros ->; lia | intros ->; lia | reflexivity].
  - destruct (call_of_is_call _ _ _ Hcall) as (_ & Hr & _).
    assert (Hcr : call <> HttpReply status reply) by (intros ->; discriminate).
    destruct Htrace as [[m ->]|[e ->]].
    + intros [H|[H|[[= <- <-]|[]]]]; [congruence | discriminate |].
      split; [|split]; [intros _; eauto 10 | discriminate | congruence].
    + intros [H|[H|[[= <- <-]|[]]]]; [congruence | discriminate |].
      split; [|split]; [discriminate | | congruence].
      intros _. exists c, e, [call]. split; [exact Hc|]. split; [right; eauto | reflexivity].
  - intros [H|[[= <- <-]|[]]]; [discriminate|].
    split; [|split]; [discriminate | | congruence].
    intros _. exists c, e, []. split; [exact Hc|]. split; [now left | reflexivity].
Qed.

End RouterTraces.

Section RouterTraceExamples.
Import Js SchemaNormalizer Proxy Trace.

Lemma upstream_call_only_when_asked_witness :
  existsb is_upstream_call
    (post_message (fun _ => Ok "")
       {[ "c1" := {| mcpClient := {| listTools := Ok []; callTool := fun _ => Ok JNull |} |} ]}
       {| clientId := Some "c1";
          body := JObj [("method", JStr "tools/call")] |})
  = true.
Proof.
  refine (proj2 (proj1 (upstream_call_only_when_asked (fun _ => Ok "")
            {[ "c1" := {| mcpClient := {| listTools := Ok [];
                                          callTool := fun _ => Ok JNull |} |} ]}
            {| clientId := Some "c1";
               body := JObj [("method", JStr "tools/call")] |})) _).
  exists "c1", {| mcpClient := {| listTools := Ok []; callTool := fun _ => Ok JNull |} |}.
  repeat split; [discriminate | now right].
Defined.

Lemma writes_only_to_the_requester_witness :
  Some "c1" = Some "c1" /\ "c1" <> ""
  /\ exists connection,
       ({[ "c1" := {| mcpClient := {| listTools := Ok [];
                                      callTool := fun _ => Ok JNull |} |};
           "c2" := {| mcpClient := {| listTools := Ok [];
                                      callTool := fun _ => Ok JNull |} |} ]}
        : gmap string ClientConnection) !! "c1" = Some connection.
Proof.
  refine (proj2 (writes_only_to_the_requester (fun _ => Ok "")
            {[ "c1" := {| mcpClient := {| listTools := Ok [];
                                          callTool := fun _ => Ok JNull |} |};
               "c2" := {| mcpClient := {| listTools := Ok [];
                                          callTool := fun _ => Ok JNull |} |} ]}
            {| clientId := Some "c1";
               body := JObj [("id", JNum 1); ("method", JStr "tools/call")] |})
          "c1" (JObj [("jsonrpc", JStr "2.0"); ("id", JNum 1); ("result", JNull)]) _).
  right. now left.
Defined.

Lemma other_sessions_do_not_matter_witness :
  post_message (fun _ => Ok "")
    {[ "c1" := {| mcpClient := {| listTools := Ok []; callTool := fun _ => Ok JNull |} |};
       "c2" := {| mcpClient := {| listTools := Throw (Thrown JNull);
                                  callTool := fun _ => Throw (Thrown JNull) |} |} ]}
    {| clientId := Some "c1"; body := JObj [("method", JStr "tools/list")] |}
  = post_message (fun _ => Ok "")
      {[ "c1" := {| mcpClient := {| listTools := Ok []; callTool := fun _ => Ok JNull |} |} ]}
      {| clientId := Some "c1"; body := JObj [("method", JStr "tools/list")] |}.
Proof.
  apply other_sessions_do_not_matter. intros c [= <-]. reflexivity.
Defined.

Lemma reply_status_meaning_witness :
  exists c call message,
    call_of c (JObj [("id", JNum 1); ("method", JStr "tools/call")]) call
    /\ post_message (fun _ => Ok "")
         {[ "c1" := {| mcpClient := {| listTools := Ok [];
                                       callTool := fun _ => Ok JNull |} |} ]}
         {| clientId := Some "c1";
            body := JObj [("id", JNum 1); ("method", JStr "tools/call")] |}
       = [call; SseWrite c message; HttpReply 202 accepted].
Proof.
  refine (proj1 (reply_status_meaning (fun _ => Ok "")
            {[ "c1" := {| mcpClient := {| listTools := Ok [];
                                          callTool := fun _ => Ok JNull |} |} ]}
            {| clientId := Some "c1";
               body := JObj [("id", JNum 1); ("method", JStr "tools/call")] |}
            202 accepted _) eq_refl).
  right. right. now left.
Defined.

End RouterTraceExamples.

Section RouterValidation.
Import Js SchemaNormalizer Proxy Trace.

Variable ToString : value -> result string.
Variable connections : gmap string ClientConnection.

(** X16: the four rejections that come before the dispatch, in the order
    the handler tries them, with their status and message; all carry the
    code -32600, and only the last one echoes the request's [id]. *)
Theorem validation_rejections (req : Request) :
  (clientId req = None \/ clientId req = Some "" ->
   post_message ToString connections req
   = [HttpReply 400 (rejection (-32600) "Missing clientId parameter" JNull)])
  /\ (forall c,
        clientId req = Some c -> c <> "" -> connections !! c = None ->
        post_message ToString connections req
        = [HttpReply 404 (rejection (-32600) "Client not found" JNull)])
  /\ (forall c connection,
        clientId req = Some c -> c <> "" -> connections !! c = Some connection ->
        (truthy (body req) = false \/ typeof (body req) <> "object" ->
         post_message ToString connections req
         = [HttpReply 400 (rejection (-32600) "Invalid JSON-RPC message" JNull)])
        /\ (truthy (body req) = true -> typeof (body req) = "object" ->
            truthy (get (body req) "method") = false ->
            post_message ToString connections req
            = [HttpReply 400 (rejection (-32600) "Missing method field"
                                        (or_null (get (body req) "id")))])).
Proof.
  unfold post_message. split; [|split].
  - intros [->| ->]; reflexivity.
  - intros c -> Hne Hconn. apply String.eqb_neq in Hne. now rewrite Hne, Hconn.
  - intros c connection -> Hne Hconn. apply String.eqb_neq in Hne.
    rewrite Hne, Hconn. cbv zeta. split.
    + intros [Ht|Ht].
      * now rewrite Ht.
      * apply String.eqb_neq in Ht. now rewrite Ht, orb_true_r.
    + intros Ht Hty Hm. apply String.eqb_eq in Hty. now rewrite Ht, Hty, Hm.
Qed.

(** X17: the answer to [tools/list].  Of what the upstream client resolves
    with, only [tools] reaches the caller: the message written to the stream
    is [{jsonrpc, id, result: {tools}}] with the request's [id], where [tools]
    is the array of descriptors when the upstream [tools] is an array of
    tools normalizeTool accepts, and the upstream [tools] itself when that is
    not an array; any other member of the upstream result is dropped. *)
Theorem tools_list_answer (req : Request) (c : string)
    (connection : ClientConnection) (result : props) :
  clientId req = Some c -> c <> "" -> connections !! c = Some connection ->
  get (body req) "method" = JStr "tools/list" ->
  listTools (mcpClient connection) = Ok result ->
  (isArray (get (JObj result) "tools") = false ->
   post_message ToString connections req
   = [UpstreamListTools c;
      SseWrite c (JObj [("jsonrpc", JStr "2.0");
                        ("id", get (body req) "id");
                        ("result", JObj [("tools", get (JObj result) "tools")])]);
      HttpReply 202 accepted])
  /\ (forall tools descriptors,
        get (JObj result) "tools" = JArr tools ->
        mapM normalizeTool tools = Ok descriptors ->
        post_message ToString connections req
        = [UpstreamListTools c;
           SseWrite c (JObj [("jsonrpc", JStr "2.0");
                             ("id", get (body req) "id");
                             ("result", JObj [("tools", JArr descriptors)])]);
           HttpReply 202 accepted]).
Proof.
  intros Hc Hne Hconn Hm Hl.
  assert (Hpost : post_message ToString connections req
                  = let (events, thrown) := dispatch ToString c connection (body req) in
                    match thrown with
                    | None => events
                    | Some error => events ++ on_error c (body req) error
                    end).
  { unfold post_message. apply String.eqb_neq in Hne. rewrite Hc, Hne, Hconn.
    cbv zeta. now rewrite (method_message_object _ _ Hm), Hm. }
  rewrite Hpost. unfold dispatch. rewrite Hm. simpl equals_string. cbv iota.
  rewrite Hl. split.
  - intros Ha. rewrite not_rewritten; [reflexivity|].
    unfold rewritten. rewrite andb_false_iff. right.
    change (get (get (JObj [("jsonrpc", JStr "2.0"); ("id", get (body req) "id");
                            ("result", JObj [("tools", get (JObj result) "tools")])])
                     "result") "tools")
      with (get (JObj result) "tools").
    exact Ha.
  - intros tools descriptors Ht Hd. rewrite Ht.
    rewrite (rewrite_closed _ [("tools", JArr tools)] tools); try reflexivity.
    now rewrite Hd.
Qed.

(** X18: a [tools/list] request is served without looking at its [params]
    or at any other member of the message: two requests for the same
    connection that name the method and agree on [id] leave the same trace. *)
Theorem tools_list_ignores_params (req req' : Request) :
  clientId req = clientId req' ->
  get (body req) "method" = JStr "tools/list" ->
  get (body req') "method" = JStr "tools/list" ->
  get (body req) "id" = get (body req') "id" ->
  post_message ToString connections req = post_message ToString connections req'.
Proof.
  intros Hc Hm Hm' Hid. unfold post_message. rewrite <- Hc.
  destruct (clientId req) as [c|]; [|reflexivity].
  destruct (String.eqb c ""); [reflexivity|].
  destruct (connections !! c) as [connection|]; [|reflexivity].
  cbv zeta. rewrite (method_message_object _ _ Hm), (method_message_object _ _ Hm').
  rewrite Hm, Hm'. simpl truthy. cbv iota.
  unfold dispatch, on_error. rewrite Hm, Hm', Hid. reflexivity.
Qed.

End RouterValidation.

Section RouterValidationExamples.
Import Js SchemaNormalizer Proxy Trace.

Lemma validation_rejections_witness :
  post_message (fun _ => Ok "") ∅ {| clientId := Some ""; body := JNull |}
  = [HttpReply 400 (rejection (-32600) "Missing clientId parameter" JNull)]
  /\ post_message (fun _ => Ok "") ∅
       {| clientId := Some "gone"; body := JObj [("method", JStr "tools/list")] |}
     = [HttpReply 404 (rejection (-32600) "Client not found" JNull)]
  /\ post_message (fun _ => Ok "")
       {[ "c1" := {| mcpClient := {| listTools := Ok [];
                                     callTool := fun _ => Ok JNull |} |} ]}
       {| clientId := Some "c1"; body := JObj [("id", JStr "r1")] |}
     = [HttpReply 400 (rejection (-32600) "Missing method field" (JStr "r1"))].
Proof.
  split; [|split].
  - exact (proj1 (validation_rejections (fun _ => Ok "") ∅
                    {| clientId := Some ""; body := JNull |})
                 (or_intror eq_refl)).
  - refine (proj1 (proj2 (validation_rejections (fun _ => Ok "") ∅
              {| clientId := Some "gone";
                 body := JObj [("method", JStr "tools/list")] |}))
              "gone" eq_refl _ eq_refl).
    discriminate.
  - refine (proj2 (proj2 (proj2 (validation_rejections (fun _ => Ok "")
              {[ "c1" := {| mcpClient := {| listTools := Ok [];
                                            callTool := fun _ => Ok JNull |} |} ]}
              {| clientId := Some "c1"; body := JObj [("id", JStr "r1")] |}))
              "c1" _ eq_refl _ eq_refl) eq_refl eq_refl eq_refl).
    discriminate.
Defined.

Lemma tools_list_answer_witness :
  post_message (fun _ => Ok "")
    {[ "c1" := {| mcpClient :=
                    {| listTools :=
                         Ok [("tools", JArr [JObj [("name", JStr "ping")]]);
                             ("nextCursor", JStr "page-2")];
                       callTool := fun _ => Ok JNull |} |} ]}
    {| clientId := Some "c1";
       body := JObj [("jsonrpc", JStr "2.0"); ("id", JNum 5);
                     ("method", JStr "tools/list")] |}
  = [UpstreamListTools "c1";
     SseWrite "c1"
       (JObj [("jsonrpc", JStr "2.0"); ("id", JNum 5);
              ("result",
               JObj [("tools",
                      JArr [JObj [("name", JStr "ping"); ("description", JUndefined);
                                  ("inputSchema",
                                   JObj [("type", JStr "object");
                                         ("properties", JObj [])])]])])]);
     HttpReply 202 accepted].
Proof.
  refine (proj2 (tools_list_answer (fun _ => Ok "")
            {[ "c1" := {| mcpClient :=
                            {| listTools :=
                                 Ok [("tools", JArr [JObj [("name", JStr "ping")]]);
                                     ("nextCursor", JStr "page-2")];
                               callTool := fun _ => Ok JNull |} |} ]}
            {| clientId := Some "c1";
               body := JObj [("jsonrpc", JStr "2.0"); ("id", JNum 5);
                             ("method", JStr "tools/list")] |}
            "c1" _ [("tools", JArr [JObj [("name", JStr "ping")]]);
                    ("nextCursor", JStr "page-2")]
            eq_refl _ eq_refl eq_refl eq_refl)
          [JObj [("name", JStr "ping")]] _ eq_refl eq_refl).
  discriminate.
Defined.

Lemma tools_list_ignores_params_witness :
  post_message (fun _ => Ok "")
    {[ "c1" := {| mcpClient := {| listTools := Ok [("tools", JArr [])];
                                  callTool := fun _ => Ok JNull |} |} ]}
    {| clientId := Some "c1";
       body := JObj [("id", JNum 5); ("method", JStr "tools/list");
                     ("params", JObj [("cursor", JStr "page-2")])] |}
  = post_message (fun _ => Ok "")
      {[ "c1" := {| mcpClient := {| listTools := Ok [("tools", JArr [])];
                                    callTool := fun _ => Ok JNull |} |} ]}
      {| clientId := Some "c1";
         body := JObj [("id", JNum 5); ("method", JStr "tools/list")] |}.
Proof.
  exact (tools_list_ignores_params (fun _ => Ok "")
           {[ "c1" := {| mcpClient := {| listTools := Ok [("tools", JArr [])];
                                         callTool := fun _ => Ok JNull |} |} ]}
           {| clientId := Some "c1";
              body := JObj [("id", JNum 5); ("method", JStr "tools/list");
                            ("params", JObj [("cursor", JStr "page-2")])] |}
           {| clientId := Some "c1";
              body := JObj [("id", JNum 5); ("method", JStr "tools/list")] |}
           eq_refl eq_refl eq_refl eq_refl).
Defined.

End RouterValidationExamples.

(** * Properties of sendToClient *)

Section WireText.
Import Js Wire.

(** Induction on values, with the induction hypothesis for the elements of
    an array and the members of an object. *)
Lemma value_nested_ind (P : value -> Prop) :
  P JUndefined -> P JNull -> (forall b, P (JBool b)) -> (forall n, P (JNum n)) ->
  (forall s, P (JStr s)) ->
  (forall l, Forall P l -> P (JArr l)) ->
  (forall o, Forall (fun kv => P (snd kv)) o -> P (JObj o)) ->
  forall v, P v.
Proof.
  intros Hu Hn Hb Hnum Hs Ha Ho. fix IH 1. intros [| |b|n|s|l|o].
  - exact Hu.
  - exact Hn.
  - apply Hb.
  - apply Hnum.
  - apply Hs.
  - apply Ha. induction l as [|x l IHl]; constructor; [apply IH | exact IHl].
  - apply Ho. induction o as [|[k x] o IHo]; constructor; [apply IH | exact IHo].
Qed.

Variable number_to_string : float -> string.

Lemma stringify_None v : stringify number_to_string v = None <-> v = JUndefined.
Proof. destruct v; simpl; split; congruence. Qed.

Lemma stringify_defined v :
  is_undefined v = false -> exists text, stringify number_to_string v = Some text.
Proof. destruct v; simpl; try discriminate; eauto. Qed.

(** X19: what is written is the text of JSON data.  [JSON.stringify] writes
    a value as it writes the value with every member that holds [undefined]
    left out, at any depth, and with [null] for the [undefined] elements of
    arrays and for the numbers that are not finite; that value holds no
    [undefined]. *)
Theorem stringify_as_json (v : value) :
  stringify number_to_string (as_json v) = stringify number_to_string v
  /\ sendToClient number_to_string (as_json v) = sendToClient number_to_string v
  /\ (is_undefined v = false -> is_json (as_json v) = true).
Proof.
  assert (H : stringify number_to_string (as_json v) = stringify number_to_string v
              /\ (is_undefined v = false -> is_json (as_json v) = true)).
  { induction v as [| |b|n|s|l IH|o IH] using value_nested_ind;
      try (split; [reflexivity | auto]).
    - split; [|intros _]; simpl; destruct (PrimFloat.is_finite n) eqn:E; simpl;
        rewrite ?E; reflexivity.
    - split.
      + assert (E : map (fun x => match stringify number_to_string x with
                                  | Some text => text
                                  | None => "null"
                                  end)
                      (map (fun x => if is_undefined x then JNull else as_json x) l)
                    = map (fun x => match stringify number_to_string x with
                                    | Some text => text
                                    | None => "null"
                                    end) l).
        { rewrite map_map. induction IH as [|x l [Hx _] _ IHl]; [reflexivity|].
          simpl. rewrite IHl. f_equal.
          destruct (is_undefined x) eqn:E;
            [destruct x; try discriminate; reflexivity | now rewrite Hx]. }
        simpl. now rewrite E.
      + intros _. simpl. rewrite forallb_forall. intros y Hy.
        apply in_map_iff in Hy as (x & <- & Hx).
        rewrite List.Forall_forall in IH. destruct (is_undefined x) eqn:E; [reflexivity|].
        now apply (IH x Hx).
    - split.
      + assert (E : flat_map (fun kv => match stringify number_to_string (snd kv) with
                                       | Some text => [quote (fst kv) +:+ ":" +:+ text]
                                       | None => []
                                       end)
                      (flat_map (fun kv => if is_undefined (snd kv) then []
                                           else [(fst kv, as_json (snd kv))]) o)
                    = flat_map (fun kv => match stringify number_to_string (snd kv) with
                                         | Some text => [quote (fst kv) +:+ ":" +:+ text]
                                         | None => []
                                         end) o).
        { induction IH as [|[k x] o [Hx _] _ IHo]; [reflexivity|].
          simpl. rewrite <- IHo. destruct (is_undefined x) eqn:E.
          - destruct x; try discriminate. reflexivity.
          - simpl in *. now rewrite Hx. }
        simpl. now rewrite E.
      + intros _. simpl. rewrite forallb_forall. intros y Hy.
        apply in_flat_map in Hy as ([k x] & Hkx & Hy). simpl in Hy.
        destruct (is_undefined x) eqn:E; [destruct Hy|].
        destruct Hy as [<-|[]]. simpl. rewrite List.Forall_forall in IH.
        now apply (IH (k, x) Hkx). }
  destruct H as [H1 H2]. split; [exact H1|]. split; [|exact H2].
  unfold sendToClient. now rewrite H1.
Qed.

End WireText.

Section WireTextExamples.
Import Js Wire.

Lemma stringify_as_json_witness :
  is_json
    (as_json (JObj [("name", JStr "ping"); ("description", JUndefined);
                    ("inputSchema", JObj [("type", JStr "object");
                                          ("properties", JObj [])])]))
  = true.
Proof.
  exact (proj2 (proj2 (stringify_as_json (fun _ => "0")
                         (JObj [("name", JStr "ping"); ("description", JUndefined);
                                ("inputSchema", JObj [("type", JStr "object");
                                                      ("properties", JObj [])])])))
               eq_refl).
Defined.

End WireTextExamples.

Section WireFrame.
Import Js Wire.

Variable number_to_string : float -> string.

Lemma one_line_app a b : one_line (a +:+ b) = one_line a && one_line b.
Proof.
  induction a as [|c a IH]; simpl; [reflexivity|]. rewrite IH.
  now rewrite !andb_assoc.
Qed.

Lemma one_line_escape c : one_line (escape c) = true.
Proof. destruct c as [[] [] [] [] [] [] [] []]; reflexivity. Qed.

Lemma one_line_escape_all s : one_line (escape_all s) = true.
Proof.
  induction s as [|c s IH]; simpl; [reflexivity|].
  now rewrite one_line_app, one_line_escape, IH.
Qed.

Lemma one_line_quote s : one_line (quote s) = true.
Proof.
  unfold quote. change (String quotation_mark (escape_all s +:+ String quotation_mark ""))
    with (String quotation_mark "" +:+ (escape_all s +:+ String quotation_mark "")).
  now rewrite !one_line_app, one_line_escape_all.
Qed.

Lemma one_line_concat sep l :
  one_line sep = true -> Forall (fun s => one_line s = true) l ->
  one_line (String.concat sep l) = true.
Proof.
  intros Hsep H. induction H as [|x l Hx Hl IH]; [reflexivity|].
  simpl. destruct l as [|y l]; [exact Hx|].
  now rewrite !one_line_app, Hx, Hsep, IH.
Qed.

Lemma stringify_one_line :
  (forall n, one_line (number_to_string n) = true) ->
  forall v text, stringify number_to_string v = Some text -> one_line text = true.
Proof.
  intros Hnum v.
  induction v as [| |b|n|s|l IH|o IH] using value_nested_ind; intros text; simpl.
  - discriminate.
  - now intros [= <-].
  - intros [= <-]. now destruct b.
  - intros [= <-]. destruct (PrimFloat.is_finite n); [apply Hnum | reflexivity].
  - intros [= <-]. apply one_line_quote.
  - intros [= <-]. rewrite !one_line_app. simpl. rewrite andb_true_r.
    apply one_line_concat; [reflexivity|]. apply List.Forall_forall.
    intros y Hy. apply in_map_iff in Hy as (x & <- & Hx).
    rewrite List.Forall_forall in IH.
    destruct (stringify number_to_string x) eqn:E; [now apply (IH x Hx) | reflexivity].
  - intros [= <-]. rewrite !one_line_app. simpl. rewrite andb_true_r.
    apply one_line_concat; [reflexivity|]. apply List.Forall_forall.
    intros y Hy. apply in_flat_map in Hy as ([k x] & Hkx & Hy). simpl in Hy.
    rewrite List.Forall_forall in IH.
    destruct (stringify number_to_string x) eqn:E; [|destruct Hy].
    destruct Hy as [<-|[]]. rewrite !one_line_app, one_line_quote. simpl.
    now apply (IH (k, x) Hkx).
Qed.

(** X20: a message cannot break the framing of the stream.  What
    sendToClient writes is ["data: "], one line of text, and two line feeds:
    [JSON.stringify] escapes the line breaks inside strings, so that, numbers
    being printed on one line, the payload holds no line feed and no
    carriage return; for a message other than [undefined] the payload is its
    JSON text. *)
Theorem sendToClient_one_event (message : value) :
  (forall n, one_line (number_to_string n) = true) ->
  exists data,
    sendToClient number_to_string message
    = "data: " +:+ data +:+ String line_feed (String line_feed "")
    /\ one_line data = true
    /\ (is_undefined message = false ->
        stringify number_to_string message = Some data).
Proof.
  intros Hnum. unfold sendToClient.
  destruct (stringify number_to_string message) as [data|] eqn:E.
  - exists data. repeat split. exact (stringify_one_line Hnum message data E).
  - exists "undefined". repeat split. apply stringify_None in E. now subst.
Qed.

End WireFrame.

Section WireFrameExamples.
Import Js Wire.

Lemma sendToClient_one_event_witness :
  exists data,
    sendToClient (fun _ => "1")
      (JObj [("id", JNum 1);
             ("result", JStr (String "a" (String line_feed (String "b" ""))))])
    = "data: " +:+ data +:+ String line_feed (String line_feed "")
    /\ one_line data = true
    /\ (is_undefined
          (JObj [("id", JNum 1);
                 ("result", JStr (String "a" (String line_feed (String "b" ""))))])
        = false ->
        stringify (fun _ => "1")
          (JObj [("id", JNum 1);
                 ("result", JStr (String "a" (String line_feed (String "b" ""))))])
        = Some data).
Proof.
  exact (sendToClient_one_event (fun _ => "1")
           (JObj [("id", JNum 1);
                  ("result", JStr (String "a" (String line_feed (String "b" ""))))])
           (fun _ => eq_refl)).
Defined.

End WireFrameExamples.

(** * Properties of the connection handlers *)

Section Connections.
Import Js Proxy Sse.

Variable POLAR_MCP_URL : string.
Variable POLAR_API_KEY : string.
Variable ToString : value -> result string.

(** X21: a connection that cannot be established leaves nothing behind.
    When [mcpClient.connect] fails, the identifier is not registered
    afterwards (not even to a connection that held it before), every other
    identifier is registered as it was, a fresh identifier leaves the
    registry as it found it, nothing is sent on the stream, the request ends
    with status 500, and a message posted to the identifier finds no
    client. *)
Theorem failed_connect_leaves_nothing (registry : gmap string ClientConnection)
    (clientId : string) (mcpClient : Client) (error : exn) (message : value) :
  let outcome := Sse.sse POLAR_MCP_URL POLAR_API_KEY registry clientId mcpClient (Throw error) in
  fst outcome !! clientId = None
  /\ (forall other, other <> clientId -> fst outcome !! other = registry !! other)
  /\ (registry !! clientId = None -> fst outcome = registry)
  /\ existsb is_send (snd outcome) = false
  /\ last (snd outcome) = Some (Status 500)
  /\ (clientId <> "" ->
      post_message ToString (fst outcome)
        {| Proxy.clientId := Some clientId; body := message |}
      = [HttpReply 404 (rejection (-32600) "Client not found" JNull)]).
Proof.
  cbv zeta. unfold Sse.sse. cbn [fst snd]. repeat apply conj.
  - apply lookup_delete_eq.
  - intros other Hne. rewrite lookup_delete_ne, lookup_insert_ne by congruence.
    reflexivity.
  - intros Hfresh. now apply delete_insert_id.
  - reflexivity.
  - reflexivity.
  - intros Hne. unfold post_message. cbn [Proxy.clientId].
    apply String.eqb_neq in Hne. now rewrite Hne, lookup_delete_eq.
Qed.

(** X22: an established connection.  When [mcpClient.connect] succeeds the
    identifier is registered to the new client and every other identifier is
    registered as it was; the upstream connection is opened with the bearer
    key before anything is sent, and the one message sent is the
    initialization message; a message posted to the identifier is handled as
    if the new connection were the only one; and a fresh identifier raises
    the connection count of /health by one. *)
Theorem established_connection (registry : gmap string ClientConnection)
    (clientId : string) (mcpClient : Client) (req : Request) :
  let outcome := Sse.sse POLAR_MCP_URL POLAR_API_KEY registry clientId mcpClient (Ok tt) in
  fst outcome !! clientId = Some {| Proxy.mcpClient := mcpClient |}
  /\ (forall other, other <> clientId -> fst outcome !! other = registry !! other)
  /\ (exists headers,
        snd outcome
        = headers ++ [Connect POLAR_MCP_URL ("Bearer " +:+ POLAR_API_KEY);
                      Send clientId initialize; Listen clientId]
        /\ existsb is_send headers = false)
  /\ (Proxy.clientId req = Some clientId ->
      post_message ToString (fst outcome) req
      = post_message ToString {[ clientId := {| Proxy.mcpClient := mcpClient |} ]} req)
  /\ (registry !! clientId = None ->
      connections (Sse.health POLAR_MCP_URL (fst outcome))
      = S (connections (Sse.health POLAR_MCP_URL registry))).
Proof.
  cbv zeta. unfold Sse.sse. cbn [fst snd]. repeat apply conj.
  - apply lookup_insert_eq.
  - intros other Hne. now rewrite lookup_insert_ne by congruence.
  - eexists. split; [reflexivity|]. reflexivity.
  - intros Hc. unfold post_message. rewrite Hc.
    now rewrite lookup_insert_eq, lookup_singleton_eq.
  - intros Hfresh. cbn [Sse.health connections]. now apply map_size_insert_None.
Qed.

(** X23: a disconnect.  The handler of [close] and [error] unregisters the
    identifier and nothing else, and closes the upstream client; running it
    again changes nothing more; the connection count of /health drops by one
    when the identifier was registered and stays otherwise; a message posted
    to the identifier afterwards finds no client; and connecting under a
    fresh identifier and disconnecting again gives the registry back. *)
Theorem disconnect_unregisters (registry : gmap string ClientConnection)
    (clientId : string) (mcpClient : Client) (message : value) :
  let outcome := disconnect registry clientId in
  fst outcome !! clientId = None
  /\ (forall other, other <> clientId -> fst outcome !! other = registry !! other)
  /\ snd outcome = [CloseClient clientId]
  /\ fst (disconnect (fst outcome) clientId) = fst outcome
  /\ connections (Sse.health POLAR_MCP_URL (fst outcome))
     = match registry !! clientId with
       | Some _ => pred (size registry)
       | None => size registry
       end
  /\ (clientId <> "" ->
      post_message ToString (fst outcome)
        {| Proxy.clientId := Some clientId; body := message |}
      = [HttpReply 404 (rejection (-32600) "Client not found" JNull)])
  /\ (registry !! clientId = None ->
      fst (disconnect (fst (Sse.sse POLAR_MCP_URL POLAR_API_KEY registry clientId
                              mcpClient (Ok tt))) clientId)
      = registry).
Proof.
  cbv zeta. unfold disconnect, Sse.sse. cbn [fst snd]. repeat apply conj.
  - apply lookup_delete_eq.
  - intros other Hne. now rewrite lookup_delete_ne by congruence.
  - reflexivity.
  - apply delete_delete_eq.
  - cbn [Sse.health connections]. destruct (registry !! clientId) eqn:E.
    + apply map_size_delete_Some. eauto.
    + now apply map_size_delete_None.
  - intros Hne. unfold post_message. cbn [Proxy.clientId].
    apply String.eqb_neq in Hne. now rewrite Hne, lookup_delete_eq.
  - intros Hfresh. now apply delete_insert_id.
Qed.

End Connections.

Section ConnectionsExamples.
Import Js Proxy Sse.

Lemma failed_connect_leaves_nothing_witness :
  post_message (fun _ => Ok "")
    (fst (Sse.sse "https://api.polar.sh/mcp/sse" "key" ∅ "c1"
            {| listTools := Ok []; callTool := fun _ => Ok JNull |}
            (Throw (ErrorObj "refused"))))
    {| Proxy.clientId := Some "c1"; body := JObj [("method", JStr "tools/list")] |}
  = [HttpReply 404 (rejection (-32600) "Client not found" JNull)].
Proof.
  refine (proj2 (proj2 (proj2 (proj2 (proj2
            (failed_connect_leaves_nothing "https://api.polar.sh/mcp/sse" "key"
               (fun _ => Ok "") ∅ "c1"
               {| listTools := Ok []; callTool := fun _ => Ok JNull |}
               (ErrorObj "refused") (JObj [("method", JStr "tools/list")])))))) _).
  discriminate.
Defined.

Lemma established_connection_witness :
  connections
    (Sse.health "https://api.polar.sh/mcp/sse"
       (fst (Sse.sse "https://api.polar.sh/mcp/sse" "key"
               {[ "c0" := {| mcpClient := {| listTools := Ok [];
                                             callTool := fun _ => Ok JNull |} |} ]}
               "c1" {| listTools := Ok []; callTool := fun _ => Ok JNull |} (Ok tt))))
  = S (connections
         (Sse.health "https://api.polar.sh/mcp/sse"
            {[ "c0" := {| mcpClient := {| listTools := Ok [];
                                          callTool := fun _ => Ok JNull |} |} ]})).
Proof.
  exact (proj2 (proj2 (proj2 (proj2
           (established_connection "https://api.polar.sh/mcp/sse" "key"
              (fun _ => Ok "")
              {[ "c0" := {| mcpClient := {| listTools := Ok [];
                                            callTool := fun _ => Ok JNull |} |} ]}
              "c1" {| listTools := Ok []; callTool := fun _ => Ok JNull |}
              {| Proxy.clientId := None; body := JNull |}))))
           eq_refl).
Defined.

Lemma disconnect_unregisters_witness :
  fst (disconnect
         (fst (Sse.sse "https://api.polar.sh/mcp/sse" "key" ∅ "c1"
                 {| listTools := Ok []; callTool := fun _ => Ok JNull |} (Ok tt)))
         "c1")
  = ∅.
Proof.
  exact (proj2 (proj2 (proj2 (proj2 (proj2 (proj2
           (disconnect_unregisters "https://api.polar.sh/mcp/sse" "key"
              (fun _ => Ok "") ∅ "c1"
              {| listTools := Ok []; callTool := fun _ => Ok JNull |} JNull))))))
           eq_refl).
Defined.

End ConnectionsExamples.
